(** * walrus-mcp: the Walrus gateway client and its MCP dispatcher

    A shallow embedding of [src/walrus-client.ts] (class [WalrusClient]) and of
    the request handlers of the server entry point ([index.ts]).

    - JavaScript values are an inductive type with the language's own
      truthiness, property access, [String(...)], [parseInt] and
      [JSON.stringify].  Numbers are the doubles without a fraction, the
      infinities and [NaN]; strings are sequences of 8-bit code units.
    - Effects are explicit: a method is a function from a state (the object
      heap and the log of outbound I/O) to an outcome (a returned value or a
      thrown one) and a new state.  The file system, the HTTP endpoints and
      [process.env] are a record of the answers the outside world gives; the
      body of a response comes parsed, or as bytes where the request asks for
      an [arraybuffer].
    - Objects that are handed out by reference (the client's configuration)
      live in a heap, a finite map from locations to objects.
    - The runtime and the libraries are modelled as far as the program uses
      them: the base64 codec of [Buffer], the validation of the zod schemas,
      the request dispatch of the protocol library, and SHA-256 (FIPS 180-4)
      for [getBlobHash].
    - The two static catalogues ([ListTools], [ListResources]) are records
      transcribed from the handlers.

    Not embedded: [main] (the transport set-up). *)

From Stdlib Require Import ZArith NArith String Ascii List Lia Bool.
From Stdlib Require Import Strings.Byte DecimalString DecimalPos DecimalN.
From stdpp Require Import base gmap strings.
Import ListNotations.
Open Scope string_scope.
#[local] Set Warnings "-register-all".

(* ================================================================== *)
(** * JavaScript values and the built-ins the program uses            *)
(* ================================================================== *)

Module Js.

(** A JavaScript number without a fraction: an integer, an infinity or
    [NaN].  Numbers are doubles: every integer up to [2^53] in magnitude is
    one, beyond that only the multiples of a power of two are, and past
    [2^1024] there are the infinities. *)
Inductive number :=
| NaN
| Num (z : Z)
| Infinity (negative : bool).

Definition safe_bound : Z := 9007199254740992.      (* 2^53 *)

(** The number value of an integer: the nearest double, the one with the
    even significand when two are as near, an infinity when that is out of
    range. *)
Definition number_value (z : Z) : number :=
  let a := Z.abs z in
  if (a <? safe_bound)%Z then Num z
  else
    let e := (Z.log2 a - 52)%Z in
    let q := Z.shiftr a e in
    let r := Z.land a (Z.ones e) in
    let half := Z.shiftl 1 (e - 1) in
    let q' := if (half <? r)%Z || ((r =? half)%Z && Z.odd q)
              then (q + 1)%Z else q in
    let m := Z.shiftl q' e in
    if (m <? Z.shiftl 1 1024)%Z then Num (Z.sgn z * m)
    else Infinity (z <? 0)%Z.

Inductive value :=
| VUndefined
| VNull
| VBool (b : bool)
| VNumber (n : number)
| VString (s : string)
| VArray (items : list value)
| VObject (props : list (string * value)).

(** ToBoolean: what [if (v)], [v ? a : b] and [v || w] test. *)
Definition truthy (v : value) : bool :=
  match v with
  | VUndefined | VNull => false
  | VBool b => b
  | VNumber NaN => false
  | VNumber (Num z) => negb (z =? 0)%Z
  | VNumber (Infinity _) => true
  | VString s => negb (s =? "")
  | VArray _ | VObject _ => true
  end.

(** [a || b] *)
Definition or (a b : value) : value := if truthy a then a else b.

Definition nullish (v : value) : bool :=
  match v with
  | VUndefined | VNull => true
  | _ => false
  end.

(** The own property [k] of an object; the names of an object's properties
    are distinct. *)
Fixpoint lookup_prop (props : list (string * value)) (k : string) : value :=
  match props with
  | [] => VUndefined
  | (k', v) :: rest => if k' =? k then v else lookup_prop rest k
  end.

(** [v.k] on a value that is not [null] or [undefined].  Only data
    properties of plain objects are modelled: on a primitive or an array
    the property names read by this program are not defined. *)
Definition prop (v : value) (k : string) : value :=
  match v with
  | VObject props => lookup_prop props k
  | _ => VUndefined
  end.

(** [v?.k] *)
Definition opt_prop (v : value) (k : string) : value :=
  if nullish v then VUndefined else prop v k.

(** The decimal numeral of a natural number. *)
Definition decimal (z : Z) : string :=
  NilZero.string_of_uint (N.to_uint (Z.to_N z)).

(** Whether the integer [c] has the double [a] as its number value. *)
Definition reads_as (a c : Z) : bool :=
  match number_value c with
  | Num d => (d =? a)%Z
  | _ => false
  end.

(** [a] rounded to [k] significant digits, down or up, when that reads back
    as [a]. *)
Definition rounded_to (a : Z) (k : nat) : option Z :=
  let n := String.length (decimal a) in
  if (n <? k)%nat then None
  else
    let p := (10 ^ Z.of_nat (n - k))%Z in
    let lo := (a / p * p)%Z in
    let hi := (lo + p)%Z in
    match reads_as a lo, reads_as a hi with
    | true, true =>
        if (a - lo <? hi - a)%Z then Some lo
        else if (hi - a <? a - lo)%Z then Some hi
        else if Z.even (a / p) then Some lo else Some hi
    | true, false => Some lo
    | false, true => Some hi
    | false, false => None
    end.

Fixpoint first_some {A} (f : nat -> option A) (ks : list nat) : option A :=
  match ks with
  | [] => None
  | k :: rest =>
      match f k with
      | Some a => Some a
      | None => first_some f rest
      end
  end.

(** Seventeen significant digits tell any two doubles apart. *)
Definition shortest (a : Z) : Z :=
  if (a <? safe_bound)%Z then a
  else default a (first_some (rounded_to a) (seq 1 17)).

(** A numeral without its trailing zeros, and the numeral written with an
    exponent: [d.ddd] and the power of ten. *)
Fixpoint significand (s : string) : string :=
  match s with
  | EmptyString => ""
  | String c rest =>
      let r := significand rest in
      if (r =? "") && Ascii.eqb c "0" then "" else String c r
  end.

Definition exponential (s : string) : string :=
  match significand s with
  | EmptyString => s
  | String c rest =>
      String c (if rest =? "" then "" else "." +:+ rest)
      +:+ "e+" +:+ decimal (Z.of_nat (String.length s - 1))
  end.

(** [n.toString()] writes the shortest decimal that reads back as [n]: for
    an integer up to [2^53] its own digits, for a larger one the fewest
    significant digits that still round to it, the nearer of two such.  From
    [10^21] on the digits are written with an exponent. *)
Definition number_to_string (n : number) : string :=
  match n with
  | NaN => "NaN"
  | Infinity negative => if negative then "-Infinity" else "Infinity"
  | Num z =>
      let s := decimal (shortest (Z.abs z)) in
      (if (z <? 0)%Z then "-" else "")
      +:+ (if (String.length s <=? 21)%nat then s else exponential s)
  end.

(** [String(v)], also what a template literal applies to its holes. *)
Fixpoint to_string (v : value) : string :=
  match v with
  | VUndefined => "undefined"
  | VNull => "null"
  | VBool b => if b then "true" else "false"
  | VNumber n => number_to_string n
  | VString s => s
  | VArray items =>
      String.concat ","
        (map (fun x => if nullish x then "" else to_string x) items)
  | VObject _ => "[object Object]"
  end.

(** [typeof v], with the refinements zod reports ([null], [array], [nan]). *)
Definition type_name (v : value) : string :=
  match v with
  | VUndefined => "undefined"
  | VNull => "null"
  | VBool _ => "boolean"
  | VNumber NaN => "nan"
  | VNumber (Num _) | VNumber (Infinity _) => "number"
  | VString _ => "string"
  | VArray _ => "array"
  | VObject _ => "object"
  end.

(** [s.startsWith(p)] *)
Definition startsWith (s p : string) : bool := String.prefix p s.

(** ** [parseInt(s)] with no radix argument *)

Definition is_white_space (c : ascii) : bool :=
  let n := N_of_ascii c in
  ((9 <=? n) && (n <=? 13) || (n =? 32) || (n =? 160))%N.

Fixpoint skip_white_space (s : string) : string :=
  match s with
  | String c rest => if is_white_space c then skip_white_space rest else s
  | EmptyString => s
  end.

Definition digit_value (c : ascii) : option Z :=
  let n := Z.of_N (N_of_ascii c) in
  if ((48 <=? n) && (n <=? 57))%Z then Some (n - 48)%Z
  else if ((97 <=? n) && (n <=? 122))%Z then Some (n - 87)%Z
  else if ((65 <=? n) && (n <=? 90))%Z then Some (n - 55)%Z
  else None.

(** The longest prefix of radix-[r] digits, as a number; [acc] is [None]
    until the first digit has been read. *)
Fixpoint parse_digits (r : Z) (s : string) (acc : option Z) : option Z :=
  match s with
  | EmptyString => acc
  | String c rest =>
      match digit_value c with
      | Some d =>
          if (d <? r)%Z
          then parse_digits r rest (Some (r * default 0 acc + d))%Z
          else acc
      | None => acc
      end
  end.

Definition parseInt (s : string) : number :=
  let s1 := skip_white_space s in
  let '(negative, s2) :=
    match s1 with
    | String "-" rest => (true, rest)
    | String "+" rest => (false, rest)
    | _ => (false, s1)
    end in
  let '(radix, s3) :=
    match s2 with
    | String "0" (String "x" rest) => (16, rest)
    | String "0" (String "X" rest) => (16, rest)
    | _ => (10, s2)
    end%Z in
  match parse_digits radix s3 None with
  | None => NaN
  | Some n => number_value (if negative : bool then - n else n)
  end.

(** ** [JSON.stringify(v, null, 2)] *)

Definition hex_digit (n : N) : ascii :=
  ascii_of_N (if (n <? 10)%N then 48 + n else 87 + n).

Definition escape_char (c : ascii) : string :=
  let n := N_of_ascii c in
  if (n =? 8)%N then "\b"
  else if (n =? 9)%N then "\t"
  else if (n =? 10)%N then "\n"
  else if (n =? 12)%N then "\f"
  else if (n =? 13)%N then "\r"
  else if (n =? 34)%N then String "\" (String c "")
  else if (n =? 92)%N then "\\"
  else if (n <? 32)%N
       then "\u00" +:+ String (hex_digit (n / 16)) (String (hex_digit (n mod 16)) "")
  else String c "".

Fixpoint escape (s : string) : string :=
  match s with
  | EmptyString => ""
  | String c rest => escape_char c +:+ escape rest
  end.

Definition dquote : string := String (ascii_of_N 34) "".
Definition newline : string := String (ascii_of_N 10) "".

Definition quote (s : string) : string := dquote +:+ escape s +:+ dquote.

(** [None] stands for the [undefined] that serialising [undefined] gives;
    an object drops such a property, an array writes [null] for it. *)
Fixpoint serialize (indent : string) (v : value) {struct v} : option string :=
  let inner := indent +:+ "  " in
  let wrap (opening closing : string) (parts : list string) :=
    match parts with
    | [] => opening +:+ closing
    | _ => opening +:+ newline +:+ inner
           +:+ String.concat ("," +:+ newline +:+ inner) parts
           +:+ newline +:+ indent +:+ closing
    end in
  match v with
  | VUndefined => None
  | VNull => Some "null"
  | VBool b => Some (if b then "true" else "false")
  | VNumber NaN | VNumber (Infinity _) => Some "null"
  | VNumber n => Some (number_to_string n)
  | VString s => Some (quote s)
  | VArray items =>
      Some (wrap "[" "]" (map (fun x => default "null" (serialize inner x)) items))
  | VObject props =>
      Some (wrap "{" "}"
        ((fix members (ps : list (string * value)) : list string :=
            match ps with
            | [] => []
            | (k, x) :: rest =>
                match serialize inner x with
                | Some s => (quote k +:+ ": " +:+ s) :: members rest
                | None => members rest
                end
            end) props))
  end.

(** The handlers only serialise objects and arrays, for which the result
    is a string. *)
Definition JSON_stringify (v : value) : string :=
  default "undefined" (serialize "" v).

End Js.

(* ================================================================== *)
(** * Byte buffers and the runtime's base64 codec                     *)
(* ================================================================== *)

Module Base64.

Definition byte_of_N (n : N) : byte := byte_of_ascii (ascii_of_N n).

(** The decoding table of the runtime: both the standard and the URL-safe
    alphabet are legal, everything else has no value. *)
Definition unbase64 (c : ascii) : option N :=
  let n := N_of_ascii c in
  if ((65 <=? n) && (n <=? 90))%N then Some (n - 65)%N
  else if ((97 <=? n) && (n <=? 122))%N then Some (n - 71)%N
  else if ((48 <=? n) && (n <=? 57))%N then Some (n + 4)%N
  else if ((n =? 43) || (n =? 45))%N then Some 62%N
  else if ((n =? 47) || (n =? 95))%N then Some 63%N
  else None.

(** [Buffer.from(s, 'base64')].  The decoder walks the characters once.
    A legal character is the next sextet [lo] of the current group of
    four; from the second one on it completes a byte with the previous
    sextet [hi].  A character without a value is skipped, and [=] ends
    the decoding.  [phase] counts the legal characters of the group read
    so far.  No input is rejected. *)
Fixpoint decode_from (phase : nat) (hi : N) (s : string) : list byte :=
  match s with
  | EmptyString => []
  | String c rest =>
      match unbase64 c with
      | Some lo =>
          match phase with
          | 0 => decode_from 1 lo rest
          | 1 => byte_of_N (N.lor (N.shiftl (N.land hi 63) 2)
                                  (N.shiftr (N.land lo 48) 4))
                 :: decode_from 2 lo rest
          | 2 => byte_of_N (N.lor (N.shiftl (N.land hi 15) 4)
                                  (N.shiftr (N.land lo 60) 2))
                 :: decode_from 3 lo rest
          | _ => byte_of_N (N.lor (N.shiftl (N.land hi 3) 6)
                                  (N.land lo 63))
                 :: decode_from 0 lo rest
          end
      | None =>
          if (N_of_ascii c =? 61)%N then [] else decode_from phase hi rest
      end
  end.

Definition decode (s : string) : list byte := decode_from 0 0 s.

Definition alphabet : string :=
  "ABCDEFGHIJKLMNOPQRSTUVWXYZabcdefghijklmnopqrstuvwxyz0123456789+/".

Definition digit (n : N) : ascii :=
  match String.get (N.to_nat n) alphabet with
  | Some c => c
  | None => "="%char
  end.

(** [buf.toString('base64')]: standard alphabet, padded with [=]. *)
Fixpoint encode (bs : list byte) : string :=
  match bs with
  | [] => ""
  | [a] =>
      let x := Byte.to_N a in
      String (digit (N.shiftr x 2))
        (String (digit (N.shiftl (N.land x 3) 4)) "==")
  | [a; b] =>
      let x := Byte.to_N a in
      let y := Byte.to_N b in
      String (digit (N.shiftr x 2))
        (String (digit (N.lor (N.shiftl (N.land x 3) 4) (N.shiftr y 4)))
           (String (digit (N.shiftl (N.land y 15) 2)) "="))
  | a :: b :: c :: rest =>
      let x := Byte.to_N a in
      let y := Byte.to_N b in
      let z := Byte.to_N c in
      String (digit (N.shiftr x 2))
        (String (digit (N.lor (N.shiftl (N.land x 3) 4) (N.shiftr y 4)))
           (String (digit (N.lor (N.shiftl (N.land y 15) 2) (N.shiftr z 6)))
              (String (digit (N.land z 63)) (encode rest))))
  end.

End Base64.

(* ================================================================== *)
(** * Effects: thrown values, the outside world, the state            *)
(* ================================================================== *)

(** [response.data], as axios hands a body over.  By default the body is
    text, parsed when it is JSON; a request made with
    [responseType: 'arraybuffer'] gets the bytes in a [Buffer] instead, in the
    response of an error as in that of a success. *)
Inductive response_data :=
| Parsed (v : Js.value)
| Binary (body : list byte).

(** [data?.error].  A [Buffer] has no property of that name. *)
Definition data_error (d : response_data) : Js.value :=
  match d with
  | Parsed v => Js.opt_prop v "error"
  | Binary _ => Js.VUndefined
  end.

(** The [response] of an axios error, when the remote answered at all. *)
Record axios_response := {
  status : Z;
  data : response_data;
}.

(** What a [throw] (or a rejected promise) carries. *)
Inductive thrown :=
| AxiosError (message : string) (response : option axios_response)
| JsError (message : string)         (* any other instance of [Error] *)
| ThrownValue (v : Js.value).        (* a thrown value that is no [Error] *)

(** [axios.isAxiosError(error)] *)
Definition isAxiosError (error : thrown) : bool :=
  match error with
  | AxiosError _ _ => true
  | _ => false
  end.

(** [error instanceof Error ? error.message : String(error)] *)
Definition message_of (error : thrown) : string :=
  match error with
  | AxiosError message _ => message
  | JsError message => message
  | ThrownValue v => Js.to_string v
  end.

Inductive outcome (A : Type) :=
| Throw (error : thrown)
| Return (a : A).
Arguments Throw {A} error.
Arguments Return {A} a.

(** [interface WalrusConfig] *)
Record WalrusConfig := {
  aggregatorUrl : string;
  publisherUrl : string;
  systemObject : string;
  wallet : option string;
}.

Abbreviation loc := positive.

(** Outbound I/O, in the order it happens. *)
Inductive event :=
| EvReadFile (path : string)
| EvPut (url : string) (body : list byte) (epochs : string)
| EvGet (url : string)
| EvHead (url : string)
| EvWarn (text : string).

Record state := {
  heap : gmap loc WalrusConfig;
  log : list event;
}.

(** One issue of a failed zod validation: where, what was expected, what
    was there. *)
Record issue := {
  path : list string;
  expected : string;
  received : string;
}.

(** The answer to a request made with [responseType: 'arraybuffer'], the
    one kind of GET the program makes: the body comes as bytes, also the body
    of the response a rejection carries. *)
Inductive binary_answer :=
| Fulfilled (body : list byte)
| Rejected (message : string) (response : option (Z * list byte))
| Failed (message : string)          (* rejected with another [Error] *)
| Raised (v : Js.value).             (* rejected with a value that is no [Error] *)

(** What the caller of such a request gets: the body, or the rejection as
    the thrown value; a [Rejected] answer is an axios error. *)
Definition delivered (a : binary_answer) : outcome (list byte) :=
  match a with
  | Fulfilled body => Return body
  | Rejected message response =>
      Throw (AxiosError message
               ((fun r : Z * list byte =>
                   {| status := fst r; data := Binary (snd r) |}) <$> response))
  | Failed message => Throw (JsError message)
  | Raised v => Throw (ThrownValue v)
  end.

(** The answers of the outside world.  An HTTP call either returns what the
    program reads from the response ([response.data], [response.headers]) or
    rejects; header names are lower-case, as axios delivers them.
    [zod_message] is the text zod gives the [ZodError] of a list of issues. *)
Record Env := {
  process_env : gmap string string;
  fs_readFile : string -> outcome (list byte);
  http_put : string -> list byte -> string -> outcome Js.value;
  http_get : string -> binary_answer;
  http_head : string -> outcome (gmap string string);
  zod_message : list issue -> string;
}.

Definition action (A : Type) : Type := state -> outcome A * state.

Definition ret {A} (a : A) : action A := fun st => (Return a, st).

Definition throw {A} (error : thrown) : action A := fun st => (Throw error, st).

Definition bind {A B} (m : action A) (k : A -> action B) : action B :=
  fun st =>
    match m st with
    | (Return a, st') => k a st'
    | (Throw error, st') => (Throw error, st')
    end.

(** [try { body } catch (error) { handler }] *)
Definition try_catch {A} (body : action A) (handler : thrown -> action A)
  : action A :=
  fun st =>
    match body st with
    | (Return a, st') => (Return a, st')
    | (Throw error, st') => handler error st'
    end.

Definition lift {A} (o : outcome A) : action A := fun st => (o, st).

(** An outbound call: it is logged, then the world answers. *)
Definition io {A} (ev : event) (answer : outcome A) : action A :=
  fun st => (answer, {| heap := heap st; log := log st ++ [ev] |}).

Declare Scope action_scope.
Delimit Scope action_scope with action.
Notation "x <- m ;; k" := (bind m (fun x => k))
  (at level 100, m at next level, right associativity) : action_scope.
Open Scope action_scope.

(** [v.k], which throws a [TypeError] on [null] and [undefined]. *)
Definition get_prop (v : Js.value) (k : string) : action Js.value :=
  if Js.nullish v
  then throw (JsError ("Cannot read properties of " +:+ Js.to_string v
                       +:+ " (reading '" +:+ k +:+ "')"))
  else ret (Js.prop v k).

(** [a || d] for an optional string [a] and a string [d]. *)
Definition or_else (a : option string) (d : string) : string :=
  match a with
  | Some s => if s =? "" then d else s
  | None => d
  end.

(** [a || b] for two optional strings. *)
Definition or_opt (a b : option string) : option string :=
  match a with
  | Some s => if s =? "" then b else a
  | None => b
  end.

(* ================================================================== *)
(** * [walrus-client.ts]: class [WalrusClient]                         *)
(* ================================================================== *)

(** [interface BlobInfo].  The fields copied from a remote reply hold
    whatever the reply held; an absent optional field is [VUndefined]. *)
Record BlobInfo := {
  blobId : Js.value;
  size : Js.value;
  encodedSize : Js.value;
  storageId : Js.value;
  certified : bool;
  certifiedEpoch : Js.value;
  endEpoch : Js.value;
}.

(** [interface NetworkStatus] *)
Record NetworkStatus := {
  epoch : Z;
  networkSize : Z;
  totalStored : Z;
  availableStorage : Z;
}.

Record DeleteResult := {
  success : bool;
  message : string;
}.

(** [Partial<WalrusConfig>], the constructor's optional argument. *)
Record PartialConfig := {
  p_aggregatorUrl : option string;
  p_publisherUrl : option string;
  p_systemObject : option string;
  p_wallet : option string;
}.

(** An instance: the reference held in its private field [config]. *)
Record WalrusClient := {
  config : loc;
}.

Definition default_aggregatorUrl : string :=
  "https://aggregator-devnet.walrus.space".
Definition default_publisherUrl : string :=
  "https://publisher-devnet.walrus.space".
Definition default_systemObject : string :=
  "0x37c0e4d7b36a2f64d51bba262a1791f844cfd88f19c35b5ca709e1a6991e90dc".

Definition delete_message : string :=
  "Walrus blobs cannot be manually deleted. They will expire automatically based on their storage epochs.".

Definition list_warning : string :=
  "listBlobs: Walrus does not provide native blob listing. Consider maintaining a local index.".

(** A new object on the heap; the reference to it is the result. *)
Definition alloc (obj : WalrusConfig) : action loc :=
  fun st =>
    let l := fresh (dom (heap st)) in
    (Return l, {| heap := <[l := obj]> (heap st); log := log st |}).

(** [obj.field] through the reference [l].  A reference always points to a
    live object; the lookup of a location that was never allocated has no
    counterpart in the source and is made the [TypeError] of reading a
    property of [undefined]. *)
Definition deref {A} (l : loc) (name : string) (field : WalrusConfig -> A)
  : action A :=
  fun st =>
    match heap st !! l with
    | Some obj => (Return (field obj), st)
    | None =>
        (Throw (JsError ("Cannot read properties of undefined (reading '"
                         +:+ name +:+ "')")), st)
    end.

(** An assignment to the object behind [l], as any holder of the reference
    can make. *)
Definition assign (l : loc) (obj : WalrusConfig) (st : state) : state :=
  {| heap := <[l := obj]> (heap st); log := log st |}.

Section Client.

Variable env : Env.

(** The object literal of the constructor: for each option the override,
    else the environment variable, else (for three of them) a literal. *)
Definition resolve_config (cfg : option PartialConfig) : WalrusConfig :=
  {| aggregatorUrl :=
       or_else (or_opt (cfg ≫= p_aggregatorUrl)
                       (process_env env !! "WALRUS_AGGREGATOR_URL"))
               default_aggregatorUrl;
     publisherUrl :=
       or_else (or_opt (cfg ≫= p_publisherUrl)
                       (process_env env !! "WALRUS_PUBLISHER_URL"))
               default_publisherUrl;
     systemObject :=
       or_else (or_opt (cfg ≫= p_systemObject)
                       (process_env env !! "WALRUS_SYSTEM_OBJECT"))
               default_systemObject;
     wallet :=
       or_opt (cfg ≫= p_wallet) (process_env env !! "WALRUS_WALLET_PATH");
  |}.

(** [new WalrusClient(config?)] *)
Definition constructor (cfg : option PartialConfig) : action WalrusClient :=
  l <- alloc (resolve_config cfg) ;;
  ret {| config := l |}.

(** The test of [storeBlob] for a file path. *)
Definition is_file_path (data : string) : bool :=
  Js.startsWith data "/" || Js.startsWith data "./" || Js.startsWith data "../".

(** [error.response?.data?.error]: the error text the remote supplied. *)
Definition remote_error (response : option axios_response) : Js.value :=
  match response with
  | Some r => data_error (data r)
  | None => Js.VUndefined
  end.

(** [error.response?.data?.error || error.message], as a template hole. *)
Definition remote_or_transport (message : string)
    (response : option axios_response) : string :=
  Js.to_string (Js.or (remote_error response) (Js.VString message)).

(** [error.response?.status] *)

Definition response_status (response : option axios_response) : option Z :=
  status <$> response.

(** Lines 51-60 of [storeBlob]: the bytes to send.  A file path is read
    from the file system, anything else is decoded as base64. *)
Definition blob_data (data : string) : action (list byte) :=
  if is_file_path data
  then io (EvReadFile data) (fs_readFile env data)
  else ret (Base64.decode data).

(** Lines 75-97 of [storeBlob]: the reply of the write endpoint
    ([response.data]) made a [BlobInfo]. *)
Definition normalize_reply (response_data : Js.value) : action BlobInfo :=
  newlyCreated <- get_prop response_data "newlyCreated" ;;
  if Js.truthy newlyCreated then
    blobObject <- get_prop newlyCreated "blobObject" ;;
    the_blobId <- get_prop blobObject "blobId" ;;
    the_size <- get_prop blobObject "size" ;;
    the_encodedSize <- get_prop blobObject "encodedSize" ;;
    the_id <- get_prop blobObject "id" ;;
    resourceObject <- get_prop newlyCreated "resourceObject" ;;
    let storage := Js.opt_prop resourceObject "storage" in
    ret {| blobId := the_blobId;
           size := the_size;
           encodedSize := the_encodedSize;
           storageId := the_id;
           certified := Js.truthy resourceObject;
           certifiedEpoch := Js.opt_prop storage "startEpoch";
           endEpoch := Js.opt_prop storage "endEpoch" |}
  else
    alreadyCertified <- get_prop response_data "alreadyCertified" ;;
    if Js.truthy alreadyCertified then
      the_blobId <- get_prop alreadyCertified "blobId" ;;
      the_certifiedEpoch <- get_prop alreadyCertified "certifiedEpoch" ;;
      the_endEpoch <- get_prop alreadyCertified "endEpoch" ;;
      ret {| blobId := the_blobId;
             size := Js.VNumber (Js.Num 0);
             encodedSize := Js.VNumber (Js.Num 0);
             storageId := the_blobId;
             certified := true;
             certifiedEpoch := the_certifiedEpoch;
             endEpoch := the_endEpoch |}
    else
      throw (JsError "Unexpected response format from Walrus publisher").

(** Lines 98-103 of [storeBlob]: the [catch] clause. *)
Definition storeBlob_catch (error : thrown) : action BlobInfo :=
  match error with
  | AxiosError message response =>
      throw (JsError ("Failed to store blob: "
                      +:+ remote_or_transport message response))
  | _ =>
      throw (JsError ("Failed to store blob: " +:+ message_of error))
  end.

Definition storeBlob (this : WalrusClient) (data : string)
    (epochs : Js.number) : action BlobInfo :=
  try_catch
    (blobData <- blob_data data ;;
     base <- deref (config this) "publisherUrl" publisherUrl ;;
     let url := base +:+ "/v1/store" in
     let params := Js.number_to_string epochs in
     response_data <- io (EvPut url blobData params)
                         (http_put env url blobData params) ;;
     normalize_reply response_data)
    storeBlob_catch.

Definition getBlob (this : WalrusClient) (id : string) : action string :=
  try_catch
    (base <- deref (config this) "aggregatorUrl" aggregatorUrl ;;
     let url := base +:+ "/v1/" +:+ id in
     response_data <- io (EvGet url) (delivered (http_get env url)) ;;
     ret (Base64.encode response_data))
    (fun error =>
       match error with
       | AxiosError message response =>
           if decide (response_status response = Some 404%Z)
           then throw (JsError ("Blob not found: " +:+ id))
           else throw (JsError ("Failed to retrieve blob: "
                                +:+ remote_or_transport message response))
       | _ =>
           throw (JsError ("Failed to retrieve blob: " +:+ message_of error))
       end).

Definition getBlobInfo (this : WalrusClient) (id : string) : action BlobInfo :=
  try_catch
    (base <- deref (config this) "aggregatorUrl" aggregatorUrl ;;
     let url := base +:+ "/v1/" +:+ id in
     headers <- io (EvHead url) (http_head env url) ;;
     let the_size :=
       Js.VNumber (Js.parseInt (or_else (headers !! "content-length") "0")) in
     ret {| blobId := Js.VString id;
            size := the_size;
            encodedSize := the_size;
            storageId := Js.VString id;
            certified := true;
            certifiedEpoch := Js.VUndefined;
            endEpoch := Js.VUndefined |})
    (fun error =>
       match error with
       | AxiosError message response =>
           if decide (response_status response = Some 404%Z)
           then throw (JsError ("Blob not found: " +:+ id))
           else throw (JsError ("Failed to get blob info: "
                                +:+ remote_or_transport message response))
       | _ =>
           throw (JsError ("Failed to get blob info: " +:+ message_of error))
       end).

Definition listBlobs (this : WalrusClient) (limit : Js.number)
  : action (list string) :=
  _ <- io (EvWarn list_warning) (Return tt) ;;
  ret [].

Definition deleteBlob (this : WalrusClient) (id : string)
  : action DeleteResult :=
  ret {| success := false; message := delete_message |}.

Definition getNetworkStatus (this : WalrusClient) : action NetworkStatus :=
  try_catch
    (ret {| epoch := 1;
            networkSize := 100;
            totalStored := 1000000;
            availableStorage := 10000000 |})
    (fun error =>
       throw (JsError ("Failed to get network status: " +:+ message_of error))).

(** [return { ...this.config }]: a new object with the same fields; the
    reference to the new object is what the caller gets. *)
Definition getConfig (this : WalrusClient) : action loc :=
  copy <- deref (config this) "config" (fun obj => obj) ;;
  alloc copy.

Definition blobExists (this : WalrusClient) (id : string) : action bool :=
  try_catch
    (base <- deref (config this) "aggregatorUrl" aggregatorUrl ;;
     let url := base +:+ "/v1/" +:+ id in
     _ <- io (EvHead url) (http_head env url) ;;
     ret true)
    (fun _ => ret false).

End Client.

(* ================================================================== *)
(** * [index.ts]: schemas and request handlers                         *)
(* ================================================================== *)

(** ** The results as JavaScript objects, in the order of their literals *)

Definition BlobInfo_to_value (b : BlobInfo) : Js.value :=
  Js.VObject
    [("blobId", blobId b);
     ("size", size b);
     ("encodedSize", encodedSize b);
     ("storageId", storageId b);
     ("certified", Js.VBool (certified b));
     ("certifiedEpoch", certifiedEpoch b);
     ("endEpoch", endEpoch b)].

Definition NetworkStatus_to_value (s : NetworkStatus) : Js.value :=
  Js.VObject
    [("epoch", Js.VNumber (Js.Num (epoch s)));
     ("networkSize", Js.VNumber (Js.Num (networkSize s)));
     ("totalStored", Js.VNumber (Js.Num (totalStored s)));
     ("availableStorage", Js.VNumber (Js.Num (availableStorage s)))].

Definition WalrusConfig_to_value (c : WalrusConfig) : Js.value :=
  Js.VObject
    [("aggregatorUrl", Js.VString (aggregatorUrl c));
     ("publisherUrl", Js.VString (publisherUrl c));
     ("systemObject", Js.VString (systemObject c));
     ("wallet", match wallet c with
                | Some w => Js.VString w
                | None => Js.VUndefined
                end)].

Definition DeleteResult_to_value (d : DeleteResult) : Js.value :=
  Js.VObject
    [("success", Js.VBool (success d));
     ("message", Js.VString (message d))].

(** ** zod schemas *)

Definition invalid_type (where_ : list string) (wanted : string)
    (v : Js.value) : issue :=
  {| path := where_; expected := wanted; received := Js.type_name v |}.

(** [z.string()] at property [k] *)
Definition z_string (k : string) (v : Js.value) : list issue + string :=
  match v with
  | Js.VString s => inr s
  | _ => inl [invalid_type [k] "string" v]
  end.

(** [z.number().optional()] at property [k]; to zod an infinity is a
    number, [NaN] is not. *)
Definition z_number_optional (k : string) (v : Js.value)
  : list issue + option Js.number :=
  match v with
  | Js.VUndefined => inr None
  | Js.VNumber (Js.Num z) => inr (Some (Js.Num z))
  | Js.VNumber (Js.Infinity negative) => inr (Some (Js.Infinity negative))
  | _ => inl [invalid_type [k] "number" v]
  end.

Definition issues_of {A} (r : list issue + A) : list issue :=
  match r with
  | inl issues => issues
  | inr _ => []
  end.

Section Server.

Variable env : Env.

(** [schema.parse(args)] throws a [ZodError] that lists every issue. *)
Definition ZodError (issues : list issue) : thrown :=
  JsError (zod_message env issues).

(** [StoreBlobSchema.parse] *)
Definition StoreBlobSchema_parse (args : Js.value)
  : outcome (string * option Js.number) :=
  match args with
  | Js.VObject props =>
      let the_data := z_string "data" (Js.lookup_prop props "data") in
      let the_epochs :=
        z_number_optional "epochs" (Js.lookup_prop props "epochs") in
      match the_data, the_epochs with
      | inr d, inr e => Return (d, e)
      | _, _ => Throw (ZodError (issues_of the_data ++ issues_of the_epochs))
      end
  | _ => Throw (ZodError [invalid_type [] "object" args])
  end.

(** [z.object({ blobId: z.string() }).parse]: the shape of three of the
    schemas. *)
Definition blobId_object_parse (args : Js.value) : outcome string :=
  match args with
  | Js.VObject props =>
      match z_string "blobId" (Js.lookup_prop props "blobId") with
      | inr id => Return id
      | inl issues => Throw (ZodError issues)
      end
  | _ => Throw (ZodError [invalid_type [] "object" args])
  end.

(** [GetBlobSchema.parse] *)
Definition GetBlobSchema_parse : Js.value -> outcome string :=
  blobId_object_parse.

(** [DeleteBlobSchema.parse] *)
Definition DeleteBlobSchema_parse : Js.value -> outcome string :=
  blobId_object_parse.

(** [GetBlobInfoSchema.parse] *)
Definition GetBlobInfoSchema_parse : Js.value -> outcome string :=
  blobId_object_parse.

(** [ListBlobsSchema.parse] *)
Definition ListBlobsSchema_parse (args : Js.value)
  : outcome (option Js.number) :=
  match args with
  | Js.VObject props =>
      match z_number_optional "limit" (Js.lookup_prop props "limit") with
      | inr limit => Return limit
      | inl issues => Throw (ZodError issues)
      end
  | _ => Throw (ZodError [invalid_type [] "object" args])
  end.

(** ** The reply envelopes *)

Record text_content := {
  type : string;
  text : string;
}.

(** [isError] is [None] where the literal has no such property. *)
Record envelope := {
  content : list text_content;
  isError : option bool;
}.

Record resource_content := {
  uri : string;
  mimeType : string;
  resource_text : string;
}.

Definition text_result (s : string) : envelope :=
  {| content := [{| type := "text"; text := s |}]; isError := None |}.

Definition error_result (error : thrown) : envelope :=
  {| content := [{| type := "text";
                    text := "Error: " +:+ message_of error |}];
     isError := Some true |}.

(** The handler of [CallToolRequestSchema]. *)
Definition call_tool (walrusClient : WalrusClient) (name : string)
    (args : Js.value) : action envelope :=
  try_catch
    (if name =? "store_blob" then
       parsed <- lift (StoreBlobSchema_parse args) ;;
       let '(the_data, the_epochs) := parsed in
       result <- storeBlob env walrusClient the_data
                           (default (Js.Num 5) the_epochs) ;;
       ret (text_result (Js.JSON_stringify (BlobInfo_to_value result)))
     else if name =? "get_blob" then
       id <- lift (GetBlobSchema_parse args) ;;
       result <- getBlob env walrusClient id ;;
       ret (text_result result)
     else if name =? "list_blobs" then
       limit <- lift (ListBlobsSchema_parse args) ;;
       result <- listBlobs walrusClient (default (Js.Num 10) limit) ;;
       ret (text_result
              (Js.JSON_stringify (Js.VArray (map Js.VString result))))
     else if name =? "delete_blob" then
       id <- lift (DeleteBlobSchema_parse args) ;;
       result <- deleteBlob walrusClient id ;;
       ret (text_result (Js.JSON_stringify (DeleteResult_to_value result)))
     else if name =? "get_blob_info" then
       id <- lift (GetBlobInfoSchema_parse args) ;;
       result <- getBlobInfo env walrusClient id ;;
       ret (text_result (Js.JSON_stringify (BlobInfo_to_value result)))
     else
       throw (JsError ("Unknown tool: " +:+ name)))
    (fun error => ret (error_result error)).

(** The handler of [ReadResourceRequestSchema]. *)
Definition read_resource (walrusClient : WalrusClient) (the_uri : string)
  : action (list resource_content) :=
  try_catch
    (if the_uri =? "walrus://status" then
       the_status <- getNetworkStatus walrusClient ;;
       ret [{| uri := the_uri;
               mimeType := "application/json";
               resource_text :=
                 Js.JSON_stringify (NetworkStatus_to_value the_status) |}]
     else if the_uri =? "walrus://config" then
       snapshot <- getConfig walrusClient ;;
       as_value <- deref snapshot "config" WalrusConfig_to_value ;;
       ret [{| uri := the_uri;
               mimeType := "application/json";
               resource_text := Js.JSON_stringify as_value |}]
     else
       throw (JsError ("Unknown resource: " +:+ the_uri)))
    (fun error =>
       throw (JsError ("Failed to read resource " +:+ the_uri +:+ ": "
                       +:+ message_of error))).

(** ** The request loop

    The protocol library runs a handler per incoming request: what the
    handler returns is sent as the result, and a handler that throws is
    answered with an error reply for that request; the next request is
    then taken up.  Before it runs a handler the library checks the request
    against the handler's request schema: the [arguments] of a tool call are
    absent or an object, and a call with anything else is answered with the
    error of that check, the handler left out.  [process.exit] is only
    reached from [main] when the connection to the transport itself fails. *)

Inductive request :=
| CallTool (name : string) (args : Js.value)
| ReadResource (the_uri : string).

Inductive reply :=
| ToolResult (e : envelope)
| ResourceResult (contents : list resource_content)
| Fault (error : thrown).

(** [z.optional(z.record(z.unknown()))], the schema of [arguments] *)
Definition record_or_absent (args : Js.value) : bool :=
  match args with
  | Js.VUndefined | Js.VObject _ => true
  | _ => false
  end.

Definition dispatch (walrusClient : WalrusClient) (r : request) (st : state)
  : reply * state :=
  match r with
  | CallTool name args =>
      if record_or_absent args then
        match call_tool walrusClient name args st with
        | (Return e, st') => (ToolResult e, st')
        | (Throw error, st') => (Fault error, st')
        end
      else
        (Fault (ZodError [invalid_type ["params"; "arguments"] "object" args]),
         st)
  | ReadResource the_uri =>
      match read_resource walrusClient the_uri st with
      | (Return contents, st') => (ResourceResult contents, st')
      | (Throw error, st') => (Fault error, st')
      end
  end.

Fixpoint serve (walrusClient : WalrusClient) (rs : list request) (st : state)
  : list reply * state :=
  match rs with
  | [] => ([], st)
  | r :: rest =>
      let '(answer, st') := dispatch walrusClient r st in
      let '(answers, st'') := serve walrusClient rest st' in
      (answer :: answers, st'')
  end.

End Server.

(* ================================================================== *)
(** * A concrete outside world, for evaluating the model               *)
(* ================================================================== *)

(** A world without environment variables and with one file of three bytes,
    whose write endpoint answers every request with [reply], whose read
    endpoint serves the five bytes of [Hello]. *)
Definition demo_env (reply : Js.value) : Env :=
  {| process_env := ∅;
     fs_readFile := fun file =>
       if file =? "./fixtures/a.bin"
       then Return [x01; x02; x03]%byte
       else Throw (JsError "ENOENT: no such file or directory");
     http_put := fun _ _ _ => Return reply;
     http_get := fun _ => Fulfilled (list_byte_of_string "Hello");
     http_head := fun _ => Return {[ "content-length" := "5" ]};
     zod_message := fun _ => "Required" |}.

(** A world whose read endpoint knows no blob: every request fails with
    status 404. *)
Definition not_found : thrown :=
  AxiosError "Request failed with status code 404"
             (Some {| status := 404; data := Parsed (Js.VString "") |}).

Definition demo_env_404 : Env :=
  {| process_env := ∅;
     fs_readFile := fun _ => Throw (JsError "ENOENT: no such file or directory");
     http_put := fun _ _ _ => Throw not_found;
     http_get := fun _ =>
       Rejected "Request failed with status code 404" (Some (404%Z, []));
     http_head := fun _ => Throw not_found;
     zod_message := fun _ => "Required" |}.

(** A world that sets the variable of the read endpoint, and an override
    that gives the empty string for it. *)
Definition demo_env_vars : Env :=
  {| process_env := {[ "WALRUS_AGGREGATOR_URL" := "https://aggregator.example" ]};
     fs_readFile := fun _ => Throw (JsError "ENOENT: no such file or directory");
     http_put := fun _ _ _ => Throw not_found;
     http_get := fun _ =>
       Rejected "Request failed with status code 404" (Some (404%Z, []));
     http_head := fun _ => Throw not_found;
     zod_message := fun _ => "Required" |}.

(** A world whose endpoints fail with status 500 and say why in the body,
    as JSON: [{ error: "blob store is full" }].  The answer to a HEAD request
    has no body. *)
Definition remote_failure : Js.value :=
  Js.VObject [("error", Js.VString "blob store is full")].

Definition demo_env_500 : Env :=
  {| process_env := ∅;
     fs_readFile := fun _ => Throw (JsError "ENOENT: no such file or directory");
     http_put := fun _ _ _ =>
       Throw (AxiosError "Request failed with status code 500"
                (Some {| status := 500; data := Parsed remote_failure |}));
     http_get := fun _ =>
       Rejected "Request failed with status code 500"
         (Some (500%Z, list_byte_of_string (Js.JSON_stringify remote_failure)));
     http_head := fun _ =>
       Throw (AxiosError "Request failed with status code 500"
                (Some {| status := 500; data := Parsed (Js.VString "") |}));
     zod_message := fun _ => "Required" |}.

(** A world whose read endpoint answers a header-only probe with
    [headers]. *)
Definition demo_env_probe (headers : gmap string string) : Env :=
  {| process_env := ∅;
     fs_readFile := fun _ => Throw (JsError "ENOENT: no such file or directory");
     http_put := fun _ _ _ => Throw not_found;
     http_get := fun _ => Fulfilled [];
     http_head := fun _ => Return headers;
     zod_message := fun _ => "Required" |}.

Definition empty_override : PartialConfig :=
  {| p_aggregatorUrl := Some "";
     p_publisherUrl := None;
     p_systemObject := None;
     p_wallet := None |}.

Definition demo_config : WalrusConfig :=
  {| aggregatorUrl := default_aggregatorUrl;
     publisherUrl := default_publisherUrl;
     systemObject := default_systemObject;
     wallet := None |}.

(** The state right after [new WalrusClient()] in that world, and the
    client it returns. *)
Definition demo_state : state :=
  {| heap := {[ 1%positive := demo_config ]}; log := [] |}.

Definition demo_client : WalrusClient := {| config := 1%positive |}.

(** A synthetic [newlyCreated] reply of the write endpoint. *)
Definition newlyCreated_reply : Js.value :=
  Js.VObject
    [("newlyCreated",
      Js.VObject
        [("blobObject",
          Js.VObject
            [("id", Js.VString "0xobject");
             ("blobId", Js.VString "blob-1");
             ("size", Js.VNumber (Js.Num 42));
             ("encodedSize", Js.VNumber (Js.Num 65536))])])].

(** A synthetic [alreadyCertified] reply. *)
Definition alreadyCertified_reply : Js.value :=
  Js.VObject
    [("alreadyCertified",
      Js.VObject
        [("blobId", Js.VString "blob-1");
         ("certifiedEpoch", Js.VNumber (Js.Num 3));
         ("endEpoch", Js.VNumber (Js.Num 8))])].

(** The state once a write request has gone out. *)
Definition sent (st : state) (url : string) (body : list byte)
    (params : string) : state :=
  {| heap := heap st; log := log st ++ [EvPut url body params] |}.

(* ================================================================== *)
(** * Notions the properties are stated with                           *)
(* ================================================================== *)

(** The chain in the words of the specification: the override when it is
    given, else the environment variable, else a default. *)
Definition spec_chain (override variable : option string) (fallback : string)
  : string :=
  match override, variable with
  | Some s, _ => s
  | None, Some s => s
  | None, None => fallback
  end.

(** What [||] lets through: a string that is there and is not empty. *)
Definition given (o : option string) : option string :=
  match o with
  | Some s => if s =? "" then None else Some s
  | None => None
  end.

(** The chain of the three options that have a literal at the end. *)
Definition chain (override variable : option string) (fallback : string)
  : string :=
  match given override, given variable with
  | Some s, _ => s
  | None, Some s => s
  | None, None => fallback
  end.

(** The methods of a client, as calls a process makes over its life. *)
Inductive method_call :=
| StoreBlob (data : string) (epochs : Js.number)
| GetBlob (id : string)
| GetBlobInfo (id : string)
| ListBlobs (limit : Js.number)
| DeleteBlob (id : string)
| GetNetworkStatus
| GetConfig
| BlobExists (id : string).

Definition invoke (env : Env) (this : WalrusClient) (st : state)
    (call : method_call) : state :=
  match call with
  | StoreBlob the_data epochs => snd (storeBlob env this the_data epochs st)
  | GetBlob id => snd (getBlob env this id st)
  | GetBlobInfo id => snd (getBlobInfo env this id st)
  | ListBlobs limit => snd (listBlobs this limit st)
  | DeleteBlob id => snd (deleteBlob this id st)
  | GetNetworkStatus => snd (getNetworkStatus this st)
  | GetConfig => snd (getConfig this st)
  | BlobExists id => snd (blobExists env this id st)
  end.

(** An action extends the heap when every object that was there is still
    there, unchanged, afterwards. *)
Definition extends {A} (m : action A) : Prop :=
  forall st, heap st ⊆ heap (snd (m st)).

(** The byte values, for checks by enumeration. *)
Definition byte_values : list N := map N.of_nat (seq 0 256).

(** The four sextets of three bytes, as [Base64.encode] cuts them. *)
Definition sextet1 (x : N) : N := N.shiftr x 2.
Definition sextet2 (x y : N) : N := N.lor (N.shiftl (N.land x 3) 4) (N.shiftr y 4).
Definition sextet3 (y z : N) : N := N.lor (N.shiftl (N.land y 15) 2) (N.shiftr z 6).
Definition sextet4 (z : N) : N := N.land z 63.

(** The three bytes of four sextets, as [Base64.decode_from] joins them. *)
Definition join1 (p q : N) : N := N.lor (N.shiftl (N.land p 63) 2) (N.shiftr (N.land q 48) 4).
Definition join2 (p q : N) : N := N.lor (N.shiftl (N.land p 15) 4) (N.shiftr (N.land q 60) 2).
Definition join3 (p q : N) : N := N.lor (N.shiftl (N.land p 3) 6) (N.land q 63).

(** A sextet whose digit decodes to itself. *)
Definition legal (n : N) : bool :=
  match Base64.unbase64 (Base64.digit n) with
  | Some m => (m =? n)%N
  | None => false
  end.

(** The value of a numeral read from the left, [acc] being the value of the
    digits before it. *)
Fixpoint horner (d : Decimal.uint) (acc : Z) : Z :=
  match d with
  | Decimal.Nil => acc
  | Decimal.D0 l => horner l (10 * acc + 0)
  | Decimal.D1 l => horner l (10 * acc + 1)
  | Decimal.D2 l => horner l (10 * acc + 2)
  | Decimal.D3 l => horner l (10 * acc + 3)
  | Decimal.D4 l => horner l (10 * acc + 4)
  | Decimal.D5 l => horner l (10 * acc + 5)
  | Decimal.D6 l => horner l (10 * acc + 6)
  | Decimal.D7 l => horner l (10 * acc + 7)
  | Decimal.D8 l => horner l (10 * acc + 8)
  | Decimal.D9 l => horner l (10 * acc + 9)
  end%Z.

(** ** Notions for the further properties *)

(** A request to a remote endpoint, as opposed to a file read or a
    console warning. *)
Definition is_request (ev : event) : bool :=
  match ev with
  | EvPut _ _ _ | EvGet _ | EvHead _ => true
  | EvReadFile _ | EvWarn _ => false
  end.

Definition requests (evs : list event) : nat :=
  length (filter (fun ev => is_request ev = true) evs).

(** An action that only appends to the log, and among what it appends has
    at most [n] requests to a remote endpoint. *)
Definition sends_at_most {A} (n : nat) (m : action A) : Prop :=
  forall st,
    exists evs, log (snd (m st)) = (log st ++ evs)%list /\ requests evs <= n.

(** The characters of a base64 payload that count: those of the alphabet
    (standard or URL-safe) that come before the first [=]. *)
Fixpoint significant (s : string) : string :=
  match s with
  | EmptyString => ""
  | String c rest =>
      match Base64.unbase64 c with
      | Some _ => String c (significant rest)
      | None => if (N_of_ascii c =? 61)%N then "" else significant rest
      end
  end.

(** ** [index.ts]: the two static catalogues *)

Module Catalog.

(** One entry of [properties] in an [inputSchema]. *)
Record property := {
  type : string;
  description : string;
  default : option Js.number;
}.

(** An [inputSchema]; its own [type] is ['object'] throughout.  [required]
    is empty where the literal has no such key. *)
Record schema := {
  properties : list (string * property);
  required : list string;
}.

Record tool := {
  name : string;
  tool_description : string;
  inputSchema : schema;
}.

Record resource := {
  uri : string;
  resource_name : string;
  resource_description : string;
  mimeType : string;
}.

End Catalog.

(** The handler of [ListToolsRequestSchema]: the [tools] it returns. *)
Definition list_tools : list Catalog.tool :=
  [ {| Catalog.name := "store_blob";
       Catalog.tool_description := "Store a blob in Walrus decentralized storage";
       Catalog.inputSchema :=
         {| Catalog.properties :=
              [("data",
                {| Catalog.type := "string";
                   Catalog.description := "Base64 encoded data or file path to store";
                   Catalog.default := None |});
               ("epochs",
                {| Catalog.type := "number";
                   Catalog.description := "Number of epochs to store the blob (default: 5)";
                   Catalog.default := Some (Js.Num 5) |})];
            Catalog.required := ["data"] |} |};
    {| Catalog.name := "get_blob";
       Catalog.tool_description := "Retrieve a blob from Walrus storage";
       Catalog.inputSchema :=
         {| Catalog.properties :=
              [("blobId",
                {| Catalog.type := "string";
                   Catalog.description := "The blob ID to retrieve";
                   Catalog.default := None |})];
            Catalog.required := ["blobId"] |} |};
    {| Catalog.name := "list_blobs";
       Catalog.tool_description := "List stored blobs";
       Catalog.inputSchema :=
         {| Catalog.properties :=
              [("limit",
                {| Catalog.type := "number";
                   Catalog.description := "Maximum number of blobs to list (default: 10)";
                   Catalog.default := Some (Js.Num 10) |})];
            Catalog.required := [] |} |};
    {| Catalog.name := "delete_blob";
       Catalog.tool_description := "Delete a blob from Walrus storage";
       Catalog.inputSchema :=
         {| Catalog.properties :=
              [("blobId",
                {| Catalog.type := "string";
                   Catalog.description := "The blob ID to delete";
                   Catalog.default := None |})];
            Catalog.required := ["blobId"] |} |};
    {| Catalog.name := "get_blob_info";
       Catalog.tool_description := "Get information about a blob (size, availability, etc.)";
       Catalog.inputSchema :=
         {| Catalog.properties :=
              [("blobId",
                {| Catalog.type := "string";
                   Catalog.description := "The blob ID to get information about";
                   Catalog.default := None |})];
            Catalog.required := ["blobId"] |} |} ].

(** The handler of [ListResourcesRequestSchema]: the [resources] it returns. *)
Definition list_resources : list Catalog.resource :=
  [ {| Catalog.uri := "walrus://status";
       Catalog.resource_name := "Walrus Network Status";
       Catalog.resource_description := "Current status and health of the Walrus network";
       Catalog.mimeType := "application/json" |};
    {| Catalog.uri := "walrus://config";
       Catalog.resource_name := "Walrus Configuration";
       Catalog.resource_description := "Current Walrus client configuration";
       Catalog.mimeType := "application/json" |} ].

(** ** Reading an advertised schema

    What an [inputSchema] of the catalogue asks of an arguments value: an
    object in which every required property is there and every declared
    property that is there has the declared type. *)

Definition is_undefined (v : Js.value) : bool :=
  match v with
  | Js.VUndefined => true
  | _ => false
  end.

Definition has_type (ty : string) (v : Js.value) : bool :=
  if ty =? "string" then
    match v with
    | Js.VString _ => true
    | _ => false
    end
  else if ty =? "number" then
    match v with
    | Js.VNumber (Js.Num _) | Js.VNumber (Js.Infinity _) => true
    | _ => false
    end
  else false.

Definition satisfies (s : Catalog.schema) (args : Js.value) : bool :=
  match args with
  | Js.VObject props =>
      forallb (fun k => negb (is_undefined (Js.lookup_prop props k)))
              (Catalog.required s)
      && forallb (fun entry : string * Catalog.property =>
                    let v := Js.lookup_prop props (fst entry) in
                    is_undefined v || has_type (Catalog.type (snd entry)) v)
                 (Catalog.properties s)
  | _ => false
  end.

(** Whether a validation let the arguments through. *)
Definition accepted {A} (o : outcome A) : bool :=
  match o with
  | Return _ => true
  | Throw _ => false
  end.

(** The schema the handler of tool calls applies to each tool name, and
    whether it accepts the arguments. *)
Definition validates (env : Env) (tool_name : string) (args : Js.value)
  : bool :=
  if tool_name =? "store_blob" then accepted (StoreBlobSchema_parse env args)
  else if tool_name =? "get_blob" then accepted (GetBlobSchema_parse env args)
  else if tool_name =? "list_blobs" then accepted (ListBlobsSchema_parse env args)
  else if tool_name =? "delete_blob" then accepted (DeleteBlobSchema_parse env args)
  else if tool_name =? "get_blob_info" then accepted (GetBlobInfoSchema_parse env args)
  else false.

(** The default the catalogue advertises for a property of a tool. *)
Definition advertised_default (tool_name key : string) : option Js.number :=
  t ← List.find (fun t => Catalog.name t =? tool_name) list_tools;
  p ← List.find (fun entry : string * Catalog.property => fst entry =? key)
                (Catalog.properties (Catalog.inputSchema t));
  Catalog.default (snd p).

(** The envelope the handler of tool calls makes of what a client method
    did: the result shown as text, or the error. *)
Definition answer {A} (show : A -> string) (r : outcome A * state)
  : outcome envelope * state :=
  match r with
  | (Return a, st) => (Return (text_result (show a)), st)
  | (Throw error, st) => (Return (error_result error), st)
  end.

(** The characters base64 text is made of. *)
Definition base64_char (c : ascii) : bool :=
  match Base64.unbase64 c with
  | Some _ => true
  | None => (N_of_ascii c =? 61)%N
  end.

Fixpoint all_chars (P : ascii -> bool) (s : string) : bool :=
  match s with
  | EmptyString => true
  | String c rest => P c && all_chars P rest
  end.

(** ** SHA-256, the digest [getBlobHash] asks the runtime for

    [createHash('sha256')] as FIPS 180-4 defines it, on words kept below
    [2^32]. *)

Module Sha256.

Local Open Scope N_scope.

Definition mask : N := 0xffffffff.
Definition add32 (a b : N) : N := N.land (a + b) mask.
Definition rotr (n x : N) : N :=
  N.lor (N.shiftr x n) (N.land (N.shiftl x (32 - n)) mask).
Definition not32 (x : N) : N := N.lxor x mask.

Definition Ch (x y z : N) : N := N.lxor (N.land x y) (N.land (not32 x) z).
Definition Maj (x y z : N) : N :=
  N.lxor (N.lxor (N.land x y) (N.land x z)) (N.land y z).
Definition Sigma0 (x : N) : N := N.lxor (N.lxor (rotr 2 x) (rotr 13 x)) (rotr 22 x).
Definition Sigma1 (x : N) : N := N.lxor (N.lxor (rotr 6 x) (rotr 11 x)) (rotr 25 x).
Definition sigma0 (x : N) : N := N.lxor (N.lxor (rotr 7 x) (rotr 18 x)) (N.shiftr x 3).
Definition sigma1 (x : N) : N := N.lxor (N.lxor (rotr 17 x) (rotr 19 x)) (N.shiftr x 10).

(** The largest [r] below [2^i] past [r0] with [r^k <= n], found bit by
    bit: the integer [k]-th root of [n]. *)
Fixpoint root (k n : N) (i : nat) (r : N) : N :=
  match i with
  | O => r
  | S i' =>
      let c := r + 2 ^ N.of_nat i' in
      root k n i' (if c ^ k <=? n then c else r)
  end.

(** The first 32 bits of the fractional part of the [k]-th root of [p]. *)
Definition fraction (k p : N) : N :=
  N.land (root k (p * 2 ^ (32 * k)) 40 0) mask.

Definition is_prime (n : nat) : bool :=
  forallb (fun d => negb (Nat.eqb (Nat.modulo n d) 0)) (seq 2 (n - 2)).

(** The first sixty-four primes, 2 to 311. *)
Definition primes : list N := map N.of_nat (List.filter is_prime (seq 2 310)).

(** The round constants: from the cube roots of the primes. *)
Definition K : list N := Eval vm_compute in map (fraction 3) primes.

Record hash := {
  h0 : N; h1 : N; h2 : N; h3 : N; h4 : N; h5 : N; h6 : N; h7 : N;
}.

(** The initial hash value: from the square roots of the first eight
    primes. *)
Definition initial : hash :=
  Eval vm_compute in
  match map (fraction 2) (firstn 8 primes) with
  | [a; b; c; d; e; f; g; h] =>
      {| h0 := a; h1 := b; h2 := c; h3 := d; h4 := e; h5 := f; h6 := g; h7 := h |}
  | _ => {| h0 := 0; h1 := 0; h2 := 0; h3 := 0; h4 := 0; h5 := 0; h6 := 0; h7 := 0 |}
  end.

(** The message with its padding: a byte 0x80, zero bytes up to 56 modulo
    64, and the length of the message in bits as eight bytes, big end
    first. *)
Definition length_bytes (bits : N) : list N :=
  map (fun i => N.land (N.shiftr bits (8 * i)) 255) [7; 6; 5; 4; 3; 2; 1; 0].

Definition pad (msg : list N) : list N :=
  let n := length msg in
  let zeros := ((64 - (n + 9) mod 64) mod 64)%nat in
  (msg ++ 128 :: repeat 0 zeros ++ length_bytes (8 * N.of_nat n))%list.

(** Big-endian words of a list of bytes (four bytes each). *)
Fixpoint words (bs : list N) : list N :=
  match bs with
  | a :: b :: c :: d :: rest =>
      N.lor (N.shiftl a 24) (N.lor (N.shiftl b 16) (N.lor (N.shiftl c 8) d))
      :: words rest
  | _ => []
  end.

(** The message schedule: [extend k ws] appends [k] words to [ws], each
    computed from the words 2, 7, 15 and 16 places before it. *)
Fixpoint extend (k : nat) (ws : list N) : list N :=
  match k with
  | O => ws
  | S k' =>
      let t := length ws in
      let w i := nth (t - i) ws 0 in
      extend k' (ws ++ [add32 (add32 (sigma1 (w 2%nat)) (w 7%nat))
                              (add32 (sigma0 (w 15%nat)) (w 16%nat))])%list
  end.

Definition round (s : hash) (kw : N * N) : hash :=
  let '(k, w) := kw in
  let t1 := add32 (add32 (add32 (add32 (h7 s) (Sigma1 (h4 s)))
                                (Ch (h4 s) (h5 s) (h6 s))) k) w in
  let t2 := add32 (Sigma0 (h0 s)) (Maj (h0 s) (h1 s) (h2 s)) in
  {| h0 := add32 t1 t2; h1 := h0 s; h2 := h1 s; h3 := h2 s;
     h4 := add32 (h3 s) t1; h5 := h4 s; h6 := h5 s; h7 := h6 s |}.

Definition compress (s : hash) (block : list N) : hash :=
  let r := fold_left round (combine K (extend 48 block)) s in
  {| h0 := add32 (h0 s) (h0 r); h1 := add32 (h1 s) (h1 r);
     h2 := add32 (h2 s) (h2 r); h3 := add32 (h3 s) (h3 r);
     h4 := add32 (h4 s) (h4 r); h5 := add32 (h5 s) (h5 r);
     h6 := add32 (h6 s) (h6 r); h7 := add32 (h7 s) (h7 r) |}.

(** The blocks of sixteen words; [n] bounds their number. *)
Fixpoint blocks (n : nat) (ws : list N) (s : hash) : hash :=
  match n with
  | O => s
  | S n' =>
      match ws with
      | [] => s
      | _ => blocks n' (skipn 16 ws) (compress s (firstn 16 ws))
      end
  end.

Definition digest (msg : list byte) : hash :=
  let ws := words (pad (map Byte.to_N msg)) in
  blocks (length ws) ws initial.

Definition hex8 (w : N) (tail : string) : string :=
  String (Js.hex_digit (N.land (N.shiftr w 28) 15))
    (String (Js.hex_digit (N.land (N.shiftr w 24) 15))
       (String (Js.hex_digit (N.land (N.shiftr w 20) 15))
          (String (Js.hex_digit (N.land (N.shiftr w 16) 15))
             (String (Js.hex_digit (N.land (N.shiftr w 12) 15))
                (String (Js.hex_digit (N.land (N.shiftr w 8) 15))
                   (String (Js.hex_digit (N.land (N.shiftr w 4) 15))
                      (String (Js.hex_digit (N.land w 15)) tail))))))).

(** [.digest('hex')] *)
Definition hex (s : hash) : string :=
  hex8 (h0 s) (hex8 (h1 s) (hex8 (h2 s) (hex8 (h3 s)
    (hex8 (h4 s) (hex8 (h5 s) (hex8 (h6 s) (hex8 (h7 s) EmptyString))))))).

End Sha256.

(** [getBlobHash].  Its argument is a string, never a [Buffer], so the
    base64 decoding is what is hashed. *)
Definition getBlobHash (this : WalrusClient) (data : string) : string :=
  Sha256.hex (Sha256.digest (Base64.decode data)).

Definition is_lower_hex (c : ascii) : bool :=
  let n := N_of_ascii c in
  ((48 <=? n) && (n <=? 57) || (97 <=? n) && (n <=? 102))%N.

(** An action that leaves the heap as it found it. *)
Definition keeps_heap {A} (m : action A) : Prop :=
  forall st, heap (snd (m st)) = heap st.

(** Base64 text in the URL-safe alphabet: [-] for [+] and [_] for [/]. *)
Definition url_safe_char (c : ascii) : ascii :=
  if (N_of_ascii c =? 43)%N then "-"%char
  else if (N_of_ascii c =? 47)%N then "_"%char
  else c.

Fixpoint url_safe (s : string) : string :=
  match s with
  | EmptyString => ""
  | String c rest => String (url_safe_char c) (url_safe rest)
  end.

(* ================================================================== *)
(** * Properties                                                       *)
(* ================================================================== *)

(** ** The monad's equations *)

Lemma bind_Return {A B} (m : action A) (k : A -> action B) st a st' :
  m st = (Return a, st') -> bind m k st = k a st'.
Proof. intros H. unfold bind. now rewrite H. Qed.

Lemma bind_Throw {A B} (m : action A) (k : A -> action B) st error st' :
  m st = (Throw error, st') -> bind m k st = (Throw error, st').
Proof. intros H. unfold bind. now rewrite H. Qed.

Lemma deref_allocated {A} l name (field : WalrusConfig -> A) st obj :
  heap st !! l = Some obj -> deref l name field st = (Return (field obj), st).
Proof. intros H. unfold deref. now rewrite H. Qed.

Lemma get_prop_object props k st :
  get_prop (Js.VObject props) k st = (Return (Js.lookup_prop props k), st).
Proof. reflexivity. Qed.

Lemma truthy_not_nullish v : Js.truthy v = true -> Js.nullish v = false.
Proof. now destruct v. Qed.

Lemma get_prop_defined v k st :
  Js.nullish v = false -> get_prop v k st = (Return (Js.prop v k), st).
Proof. intros H. unfold get_prop. now rewrite H. Qed.

Lemma prop_truthy_object v k :
  Js.truthy (Js.prop v k) = true -> exists props, v = Js.VObject props.
Proof. destruct v; simpl; try discriminate. eauto. Qed.

(** ** The base64 codec: decoding undoes encoding *)

Module Base64Facts.

Import Base64.

Lemma byte_value_listed (a : byte) : In (Byte.to_N a) byte_values.
Proof.
  unfold byte_values.
  rewrite <- (Nnat.N2Nat.id (Byte.to_N a)). apply in_map, in_seq.
  pose proof (Byte.to_N_bounded a). lia.
Qed.

Lemma check_pairs (P : N -> N -> bool) :
  forallb (fun x => forallb (P x) byte_values) byte_values = true ->
  forall a b : byte, P (Byte.to_N a) (Byte.to_N b) = true.
Proof.
  intros Hall a b.
  rewrite forallb_forall in Hall.
  specialize (Hall _ (byte_value_listed a)).
  rewrite forallb_forall in Hall.
  exact (Hall _ (byte_value_listed b)).
Qed.

Lemma legal_spec n : legal n = true -> unbase64 (digit n) = Some n.
Proof.
  unfold legal. destruct (unbase64 (digit n)) as [m |]; [| discriminate].
  now intros ->%N.eqb_eq.
Qed.

Lemma sextets_legal (a b : byte) :
  let x := Byte.to_N a in
  let y := Byte.to_N b in
  unbase64 (digit (sextet1 x)) = Some (sextet1 x)
  /\ unbase64 (digit (sextet2 x y)) = Some (sextet2 x y)
  /\ unbase64 (digit (sextet3 x y)) = Some (sextet3 x y)
  /\ unbase64 (digit (sextet4 x)) = Some (sextet4 x)
  /\ unbase64 (digit (N.shiftl (N.land x 3) 4)) = Some (N.shiftl (N.land x 3) 4)
  /\ unbase64 (digit (N.shiftl (N.land x 15) 2)) = Some (N.shiftl (N.land x 15) 2).
Proof.
  intros x y.
  pose proof (check_pairs
    (fun x y => legal (sextet1 x) && legal (sextet2 x y) && legal (sextet3 x y)
                && legal (sextet4 x) && legal (N.shiftl (N.land x 3) 4)
                && legal (N.shiftl (N.land x 15) 2))
    ltac:(vm_compute; reflexivity) a b) as H.
  cbv beta in H. rewrite !andb_true_iff in H.
  destruct H as [[[[[H1 H2] H3] H4] H5] H6].
  repeat split; now apply legal_spec.
Qed.

Lemma joins_restore (a b : byte) :
  let x := Byte.to_N a in
  let y := Byte.to_N b in
  join1 (sextet1 x) (sextet2 x y) = x
  /\ N.land (sextet2 x y) 15 = N.shiftr y 4
  /\ N.shiftr (N.land (sextet3 x y) 60) 2 = N.land x 15
  /\ N.land (sextet3 x y) 3 = N.shiftr y 6
  /\ N.lor (N.shiftl (N.shiftr x 4) 4) (N.land x 15) = x
  /\ N.lor (N.shiftl (N.shiftr x 6) 6) (N.land (sextet4 x) 63) = x
  /\ join1 (sextet1 x) (N.shiftl (N.land x 3) 4) = x
  /\ N.shiftr (N.land (N.shiftl (N.land x 15) 2) 60) 2 = N.land x 15.
Proof.
  intros x y.
  pose proof (check_pairs
    (fun x y =>
       (join1 (sextet1 x) (sextet2 x y) =? x)
       && (N.land (sextet2 x y) 15 =? N.shiftr y 4)
       && (N.shiftr (N.land (sextet3 x y) 60) 2 =? N.land x 15)
       && (N.land (sextet3 x y) 3 =? N.shiftr y 6)
       && (N.lor (N.shiftl (N.shiftr x 4) 4) (N.land x 15) =? x)
       && (N.lor (N.shiftl (N.shiftr x 6) 6) (N.land (sextet4 x) 63) =? x)
       && (join1 (sextet1 x) (N.shiftl (N.land x 3) 4) =? x)
       && (N.shiftr (N.land (N.shiftl (N.land x 15) 2) 60) 2 =? N.land x 15))%N
    ltac:(vm_compute; reflexivity) a b) as H.
  cbv beta in H. rewrite !andb_true_iff, !N.eqb_eq in H.
  tauto.
Qed.

Lemma byte_of_to_N (a : byte) : byte_of_N (Byte.to_N a) = a.
Proof. now destruct a. Qed.

Lemma decode_from_legal phase hi n rest :
  unbase64 (digit n) = Some n ->
  decode_from phase hi (String (digit n) rest)
  = match phase with
    | 0 => decode_from 1 n rest
    | 1 => byte_of_N (join1 hi n) :: decode_from 2 n rest
    | 2 => byte_of_N (join2 hi n) :: decode_from 3 n rest
    | _ => byte_of_N (join3 hi n) :: decode_from 0 n rest
    end.
Proof. intros H. simpl. now rewrite H. Qed.

Lemma decode_from_padding phase hi rest :
  decode_from phase hi (String "="%char rest) = [].
Proof. reflexivity. Qed.

Lemma join2_sextets (a b c : byte) :
  join2 (sextet2 (Byte.to_N a) (Byte.to_N b))
        (sextet3 (Byte.to_N b) (Byte.to_N c))
  = Byte.to_N b.
Proof.
  unfold join2.
  destruct (joins_restore a b) as (_ & -> & _).
  destruct (joins_restore b c) as (_ & _ & H3 & _ & H5 & _).
  now rewrite H3, H5.
Qed.

Lemma join3_sextets (b c : byte) :
  join3 (sextet3 (Byte.to_N b) (Byte.to_N c)) (sextet4 (Byte.to_N c))
  = Byte.to_N c.
Proof.
  unfold join3.
  destruct (joins_restore b c) as (_ & _ & _ & -> & _).
  now destruct (joins_restore c c) as (_ & _ & _ & _ & _ & -> & _).
Qed.

Lemma join2_last (a b : byte) :
  join2 (sextet2 (Byte.to_N a) (Byte.to_N b))
        (N.shiftl (N.land (Byte.to_N b) 15) 2)
  = Byte.to_N b.
Proof.
  unfold join2.
  destruct (joins_restore a b) as (_ & -> & _).
  destruct (joins_restore b b) as (_ & _ & _ & _ & H5 & _ & _ & H8).
  now rewrite H8, H5.
Qed.

Lemma encode_one (a : byte) :
  encode [a]
  = String (digit (sextet1 (Byte.to_N a)))
      (String (digit (N.shiftl (N.land (Byte.to_N a) 3) 4)) "==").
Proof. reflexivity. Qed.

Lemma encode_two (a b : byte) :
  encode [a; b]
  = String (digit (sextet1 (Byte.to_N a)))
      (String (digit (sextet2 (Byte.to_N a) (Byte.to_N b)))
         (String (digit (N.shiftl (N.land (Byte.to_N b) 15) 2)) "=")).
Proof. reflexivity. Qed.

Lemma encode_three (a b c : byte) (rest : list byte) :
  encode (a :: b :: c :: rest)
  = String (digit (sextet1 (Byte.to_N a)))
      (String (digit (sextet2 (Byte.to_N a) (Byte.to_N b)))
         (String (digit (sextet3 (Byte.to_N b) (Byte.to_N c)))
            (String (digit (sextet4 (Byte.to_N c))) (encode rest)))).
Proof. reflexivity. Qed.

Lemma decode_encode_upto (n : nat) :
  forall (bs : list byte) (hi : N),
    length bs <= n -> decode_from 0 hi (encode bs) = bs.
Proof.
  induction n as [n IH] using lt_wf_ind.
  intros bs hi Hlen.
  destruct bs as [| a [| b [| c rest]]].
  - reflexivity.
  - rewrite encode_one.
    destruct (sextets_legal a a) as (L1 & _ & _ & _ & L5 & _).
    rewrite (decode_from_legal 0) by exact L1.
    rewrite (decode_from_legal 1) by exact L5.
    rewrite decode_from_padding.
    destruct (joins_restore a a) as (_ & _ & _ & _ & _ & _ & H7 & _).
    now rewrite H7, byte_of_to_N.
  - rewrite encode_two.
    destruct (sextets_legal a b) as (L1 & L2 & _).
    destruct (sextets_legal b b) as (_ & _ & _ & _ & _ & L6).
    rewrite (decode_from_legal 0) by exact L1.
    rewrite (decode_from_legal 1) by exact L2.
    rewrite (decode_from_legal 2) by exact L6.
    rewrite decode_from_padding.
    destruct (joins_restore a b) as (H1 & _).
    now rewrite H1, join2_last, !byte_of_to_N.
  - rewrite encode_three.
    destruct (sextets_legal a b) as (L1 & L2 & _).
    destruct (sextets_legal b c) as (_ & _ & L3 & _).
    destruct (sextets_legal c c) as (_ & _ & _ & L4 & _).
    rewrite (decode_from_legal 0) by exact L1.
    rewrite (decode_from_legal 1) by exact L2.
    rewrite (decode_from_legal 2) by exact L3.
    rewrite (decode_from_legal 3) by exact L4.
    destruct (joins_restore a b) as (H1 & _).
    rewrite H1, join2_sextets, join3_sextets, !byte_of_to_N.
    do 3 f_equal.
    apply (IH (length rest)); simpl in *; lia.
Qed.

(** Whatever bytes [getBlob] fetched, decoding the text it returns gives
    them back. *)
Theorem decode_encode (bs : list byte) : decode (encode bs) = bs.
Proof. exact (decode_encode_upto (length bs) bs 0%N (le_n _)). Qed.

End Base64Facts.

(** ** [parseInt] reads decimal numerals *)

Module ParseIntFacts.

Import Js.

Lemma parse_digits_numeral (d : Decimal.uint) :
  forall acc,
    parse_digits 10 (NilEmpty.string_of_uint d) acc
    = match d with
      | Decimal.Nil => acc
      | _ => Some (horner d (default 0%Z acc))
      end.
Proof.
  induction d; intros acc; simpl; try reflexivity;
    rewrite IHd; destruct d; reflexivity.
Qed.

Lemma horner_of_uint_acc (d : Decimal.uint) :
  forall acc : positive,
    horner d (Zpos acc) = Zpos (Pos.of_uint_acc d acc).
Proof.
  induction d; intros acc; cbn [horner Pos.of_uint_acc]; try reflexivity;
    rewrite <- IHd; f_equal; lia.
Qed.

Lemma horner_of_uint (d : Decimal.uint) :
  horner d 0 = Z.of_N (Pos.of_uint d).
Proof.
  induction d; cbn [horner Pos.of_uint]; try reflexivity; try exact IHd;
    exact (horner_of_uint_acc d _).
Qed.

Lemma parseInt_numeral (d : Decimal.uint) :
  d <> Decimal.Nil ->
  parseInt (NilEmpty.string_of_uint d) = number_value (Z.of_N (N.of_uint d)).
Proof.
  intros Hd. unfold N.of_uint. rewrite <- horner_of_uint.
  pose proof (parse_digits_numeral d None) as Hdigits.
  unfold parseInt.
  destruct d as [| d | d | d | d | d | d | d | d | d | d];
    try contradiction;
    cbn [NilEmpty.string_of_uint] in *;
    cbn [skip_white_space];
    match goal with
    | |- context [is_white_space ?c] => change (is_white_space c) with false
    end;
    cbn -[parse_digits horner number_value].
  all: try (rewrite Hdigits; reflexivity).
  (* a leading 0: the next character is a digit or the end, never an x *)
  destruct d; cbn [NilEmpty.string_of_uint] in *;
    cbn -[parse_digits horner number_value];
    rewrite Hdigits; reflexivity.
Qed.

Lemma numeral_not_empty (n : N) : NilZero.string_of_uint (N.to_uint n) <> "".
Proof.
  pose proof (DecimalPos.Unsigned.to_uint_nonnil) as Hpos.
  destruct n as [| p]; [discriminate |].
  specialize (Hpos p). unfold N.to_uint.
  now destruct (Pos.to_uint p).
Qed.

(** A header that holds the decimal numeral of [n] is read as the number
    value of [n]. *)
Theorem parseInt_decimal (n : N) :
  parseInt (NilZero.string_of_uint (N.to_uint n)) = number_value (Z.of_N n).
Proof.
  assert (Hd : N.to_uint n <> Decimal.Nil).
  { destruct n; [discriminate | apply DecimalPos.Unsigned.to_uint_nonnil]. }
  replace (NilZero.string_of_uint (N.to_uint n))
    with (NilEmpty.string_of_uint (N.to_uint n))
    by (destruct (N.to_uint n); [contradiction | reflexivity ..]).
  rewrite parseInt_numeral by exact Hd.
  now rewrite DecimalN.Unsigned.of_to.
Qed.

(** *** The number value of an integer *)

Local Open Scope Z_scope.

(** Up to [2^53] in magnitude an integer is its own number value. *)
Lemma number_value_exact (z : Z) :
  Z.abs z <= safe_bound -> number_value z = Num z.
Proof.
  intros Hz. unfold number_value.
  destruct (Z.ltb_spec (Z.abs z) safe_bound) as [_ | Hge]; [reflexivity |].
  assert (Hcases : z = safe_bound \/ z = - safe_bound)
    by (unfold safe_bound in *; lia).
  destruct Hcases as [-> | ->]; reflexivity.
Qed.

(** The pieces of a rounding: the unit in the last place, the significand,
    what is cut off. *)
Lemma rounding_pieces (z : Z) :
  safe_bound <= z ->
  let e := Z.log2 z - 52 in
  1 <= e
  /\ z = Z.shiftr z e * 2 ^ e + Z.land z (Z.ones e)
  /\ 0 <= Z.land z (Z.ones e) < 2 ^ e
  /\ 2 ^ 52 <= Z.shiftr z e < 2 ^ 53
  /\ Z.shiftl 1 (e - 1) * 2 = 2 ^ e.
Proof.
  intros Hz e.
  assert (Hlog : 53 <= Z.log2 z)
    by (change 53 with (Z.log2 safe_bound); now apply Z.log2_le_mono).
  assert (He : 1 <= e) by (subst e; lia).
  assert (Hpos : 0 < z) by (unfold safe_bound in Hz; lia).
  destruct (Z.log2_spec z Hpos) as [Hlow Hhigh].
  assert (Hpow : 0 < 2 ^ e) by (apply Z.pow_pos_nonneg; lia).
  rewrite Z.shiftr_div_pow2, Z.land_ones, Z.shiftl_mul_pow2 by lia.
  assert (Hsplit : 2 ^ Z.log2 z = 2 ^ 52 * 2 ^ e)
    by (rewrite <- Z.pow_add_r by lia; f_equal; subst e; lia).
  assert (Hnext : 2 ^ Z.succ (Z.log2 z) = 2 ^ 53 * 2 ^ e)
    by (rewrite <- Z.pow_add_r by lia; f_equal; subst e; lia).
  repeat split.
  - exact He.
  - rewrite (Z.div_mod z (2 ^ e)) at 1 by lia. lia.
  - apply Z.mod_pos_bound; lia.
  - apply Z.mod_pos_bound; lia.
  - apply Z.div_le_lower_bound; lia.
  - apply Z.div_lt_upper_bound; lia.
  - replace e with (Z.succ (e - 1)) at 2 by lia.
    rewrite Z.pow_succ_r by lia. lia.
Qed.

(** Beyond [2^53] the number value of [z] is a multiple of the unit in the
    last place of [z], at most half a unit away from [z]. *)
Lemma number_value_nearest (z m : Z) :
  safe_bound <= z ->
  number_value z = Num m ->
  let ulp := 2 ^ (Z.log2 z - 52) in
  (ulp | m) /\ 2 * Z.abs (m - z) <= ulp /\ m <= 2 ^ 53 * ulp.
Proof.
  intros Hz Hvalue ulp.
  destruct (rounding_pieces z Hz) as (He & Hsplit & Hrest & Hq & Hhalf).
  unfold number_value in Hvalue.
  rewrite Z.abs_eq in Hvalue by (unfold safe_bound in Hz; lia).
  destruct (Z.ltb_spec z safe_bound) as [Hlt | _]; [lia |].
  cbv zeta in Hvalue. fold ulp in Hsplit, Hrest, Hhalf.
  set (q := Z.shiftr z (Z.log2 z - 52)) in *.
  set (r := Z.land z (Z.ones (Z.log2 z - 52))) in *.
  set (half := Z.shiftl 1 (Z.log2 z - 52 - 1)) in *.
  rewrite Z.shiftl_mul_pow2 in Hvalue by lia. fold ulp in Hvalue.
  rewrite Z.sgn_pos in Hvalue by (unfold safe_bound in Hz; lia).
  destruct (_ <? Z.shiftl 1 1024); [| discriminate].
  injection Hvalue as <-.
  assert (Hulp : 0 < ulp) by (apply Z.pow_pos_nonneg; lia).
  clearbody q r half ulp.
  assert (Hup : 1 * ((q + 1) * ulp) - z = ulp - r) by (rewrite Hsplit; ring).
  assert (Hdown : 1 * (q * ulp) - z = - r) by (rewrite Hsplit; ring).
  destruct (Z.ltb_spec half r) as [Hhigh | Hlow]; cbn [orb].
  - rewrite Hup. split; [exists (q + 1); lia |]. split; [lia | nia].
  - destruct (Z.eqb_spec r half) as [Heq | Hne]; cbn [andb].
    + destruct (Z.odd q).
      * rewrite Hup. split; [exists (q + 1); lia |]. split; [lia | nia].
      * rewrite Hdown. split; [exists q; lia |]. split; [lia | nia].
    + rewrite Hdown. split; [exists q; lia |]. split; [lia | nia].
Qed.

(** Below [2^1023] the number value is no infinity. *)
Lemma number_value_finite (z : Z) :
  0 <= z < 2 ^ 1023 -> exists m, number_value z = Num m.
Proof.
  intros [Hpos Hz].
  destruct (Z.le_gt_cases z safe_bound) as [Hsafe | Hbig].
  - exists z. apply number_value_exact. lia.
  - assert (Hge : safe_bound <= z) by lia.
    destruct (rounding_pieces z Hge) as (He & Hsplit & Hrest & Hq & Hhalf).
    unfold number_value. rewrite Z.abs_eq by lia.
    destruct (Z.ltb_spec z safe_bound) as [Hlt | _]; [lia |].
    cbv zeta.
    set (q' := if _ || _ then _ else _).
    assert (Hq' : q' <= 2 ^ 53) by (subst q'; destruct (_ || _); lia).
    destruct (Z.ltb_spec (Z.shiftl q' (Z.log2 z - 52)) (Z.shiftl 1 1024))
      as [_ | Hover]; [eauto |].
    exfalso.
    rewrite !Z.shiftl_mul_pow2 in Hover by lia.
    assert (Hlog : Z.log2 z < 1023) by (apply Z.log2_lt_pow2; lia).
    assert (Hpow : 2 ^ 53 * 2 ^ (Z.log2 z - 52) <= 2 ^ 1023).
    { rewrite <- Z.pow_add_r by lia. apply Z.pow_le_mono_r; lia. }
    assert (Hulp : 0 < 2 ^ (Z.log2 z - 52)) by (apply Z.pow_pos_nonneg; lia).
    assert (Hstep : (2 ^ 1024 = 2 * 2 ^ 1023)) by (change 1024 with (Z.succ 1023); rewrite Z.pow_succ_r; lia).
    nia.
Qed.

End ParseIntFacts.

(** ** The demonstration state

    [demo_state] and [demo_client] are what [new WalrusClient()] makes of the
    empty heap in the demonstration world. *)

Example constructor_demo (reply : Js.value) :
  constructor (demo_env reply) None {| heap := ∅; log := [] |}
  = (Return demo_client, demo_state).
Proof. reflexivity. Qed.

(** ** C8: [deleteBlob] *)

(** C8. For every identifier, the empty string included, [deleteBlob]
    returns [{success: false, message: <the fixed text>}]; it throws in no
    state and changes nothing. *)
Theorem deleteBlob_always_declines :
  (forall (this : WalrusClient) (id : string) (st : state),
      deleteBlob this id st
      = (Return {| success := false; message := delete_message |}, st))
  /\ (forall (this : WalrusClient) (st : state),
         fst (deleteBlob this "" st)
         = Return {| success := false; message := delete_message |}).
Proof. split; reflexivity. Qed.

(** ** C1: the reply of the write endpoint *)

Section StoreReply.

Variable env : Env.

Lemma normalize_newlyCreated reply st :
  Js.truthy (Js.prop reply "newlyCreated") = true ->
  Js.nullish (Js.prop (Js.prop reply "newlyCreated") "blobObject") = false ->
  let created := Js.prop reply "newlyCreated" in
  let blobObject := Js.prop created "blobObject" in
  let resourceObject := Js.prop created "resourceObject" in
  normalize_reply reply st
  = (Return {| blobId := Js.prop blobObject "blobId";
               size := Js.prop blobObject "size";
               encodedSize := Js.prop blobObject "encodedSize";
               storageId := Js.prop blobObject "id";
               certified := Js.truthy resourceObject;
               certifiedEpoch :=
                 Js.opt_prop (Js.opt_prop resourceObject "storage") "startEpoch";
               endEpoch :=
                 Js.opt_prop (Js.opt_prop resourceObject "storage") "endEpoch" |},
     st).
Proof.
  intros Hnc Hbo. simpl.
  destruct (prop_truthy_object _ _ Hnc) as [props ->].
  unfold normalize_reply.
  erewrite bind_Return by apply get_prop_object.
  change (Js.lookup_prop props "newlyCreated")
    with (Js.prop (Js.VObject props) "newlyCreated").
  rewrite Hnc.
  pose proof (truthy_not_nullish _ Hnc) as Hdef.
  erewrite bind_Return by (apply get_prop_defined; exact Hdef).
  repeat (erewrite bind_Return by (apply get_prop_defined; first [exact Hbo | exact Hdef])).
  reflexivity.
Qed.

Lemma normalize_without_blobObject reply st :
  Js.truthy (Js.prop reply "newlyCreated") = true ->
  Js.nullish (Js.prop (Js.prop reply "newlyCreated") "blobObject") = true ->
  normalize_reply reply st
  = (Throw (JsError
       ("Cannot read properties of "
        +:+ Js.to_string (Js.prop (Js.prop reply "newlyCreated") "blobObject")
        +:+ " (reading 'blobId')")), st).
Proof.
  intros Hnc Hbo.
  destruct (prop_truthy_object _ _ Hnc) as [props ->].
  unfold normalize_reply.
  erewrite bind_Return by apply get_prop_object.
  change (Js.lookup_prop props "newlyCreated")
    with (Js.prop (Js.VObject props) "newlyCreated").
  rewrite Hnc.
  pose proof (truthy_not_nullish _ Hnc) as Hdef.
  erewrite bind_Return by (apply get_prop_defined; exact Hdef).
  apply bind_Throw. unfold get_prop. now rewrite Hbo.
Qed.

Lemma normalize_alreadyCertified reply st :
  Js.truthy (Js.prop reply "newlyCreated") = false ->
  Js.truthy (Js.prop reply "alreadyCertified") = true ->
  let certified_ := Js.prop reply "alreadyCertified" in
  normalize_reply reply st
  = (Return {| blobId := Js.prop certified_ "blobId";
               size := Js.VNumber (Js.Num 0);
               encodedSize := Js.VNumber (Js.Num 0);
               storageId := Js.prop certified_ "blobId";
               certified := true;
               certifiedEpoch := Js.prop certified_ "certifiedEpoch";
               endEpoch := Js.prop certified_ "endEpoch" |},
     st).
Proof.
  intros Hnc Hac. simpl.
  destruct (prop_truthy_object _ _ Hac) as [props ->].
  unfold normalize_reply.
  erewrite bind_Return by apply get_prop_object.
  change (Js.lookup_prop props "newlyCreated")
    with (Js.prop (Js.VObject props) "newlyCreated").
  rewrite Hnc.
  erewrite bind_Return by apply get_prop_object.
  change (Js.lookup_prop props "alreadyCertified")
    with (Js.prop (Js.VObject props) "alreadyCertified").
  rewrite Hac.
  pose proof (truthy_not_nullish _ Hac) as Hdef.
  repeat (erewrite bind_Return by (apply get_prop_defined; exact Hdef)).
  reflexivity.
Qed.

Lemma normalize_neither reply st :
  Js.truthy (Js.prop reply "newlyCreated") = false ->
  Js.truthy (Js.prop reply "alreadyCertified") = false ->
  normalize_reply reply st
  = (Throw (JsError
       (if Js.nullish reply
        then "Cannot read properties of " +:+ Js.to_string reply
             +:+ " (reading 'newlyCreated')"
        else "Unexpected response format from Walrus publisher")), st).
Proof.
  intros Hnc Hac. unfold normalize_reply.
  destruct (Js.nullish reply) eqn:Hnull.
  - apply bind_Throw. unfold get_prop. now rewrite Hnull.
  - erewrite bind_Return by (apply get_prop_defined; exact Hnull).
    rewrite Hnc.
    erewrite bind_Return by (apply get_prop_defined; exact Hnull).
    now rewrite Hac.
Qed.

Lemma blob_data_heap data st o st1 :
  blob_data env data st = (o, st1) -> heap st1 = heap st.
Proof.
  unfold blob_data, io, ret. destruct (is_file_path data); intros [= <- <-]; reflexivity.
Qed.

Lemma storeBlob_after_put this st cfg data epochs body st1 reply :
  heap st !! config this = Some cfg ->
  blob_data env data st = (Return body, st1) ->
  http_put env (publisherUrl cfg +:+ "/v1/store") body
           (Js.number_to_string epochs) = Return reply ->
  storeBlob env this data epochs st
  = try_catch (normalize_reply reply) storeBlob_catch
      (sent st1 (publisherUrl cfg +:+ "/v1/store") body
            (Js.number_to_string epochs)).
Proof.
  intros Hcfg Hdata Hput. unfold storeBlob, try_catch.
  erewrite bind_Return by exact Hdata.
  rewrite <- (blob_data_heap _ _ _ _ Hdata) in Hcfg.
  erewrite bind_Return by (apply deref_allocated; exact Hcfg).
  cbv zeta.
  erewrite bind_Return by (unfold io; rewrite Hput; reflexivity).
  reflexivity.
Qed.

Lemma storeBlob_catch_throws error st :
  storeBlob_catch error st
  = (Throw (JsError ("Failed to store blob: "
       +:+ match error with
           | AxiosError message response => remote_or_transport message response
           | _ => message_of error
           end)), st).
Proof. now destruct error. Qed.

End StoreReply.

(** C1. Once the write endpoint has answered [storeBlob]'s request with
    [reply], whatever [reply] is.  A reply whose [newlyCreated] is there and
    holds a [blobObject] becomes a [BlobInfo] with that object's [size],
    [encodedSize], [blobId] and, as storage id, its [id].  A reply without
    [newlyCreated] whose [alreadyCertified] is there becomes a [BlobInfo] with
    size 0, encoded size 0, [certified = true] and the reply's two epochs.  An
    object with neither makes [storeBlob] throw, with the text
    [Unexpected response format from Walrus publisher] behind the operation's
    prefix.  The two replies left, a [newlyCreated] without a [blobObject]
    and a reply that is [null] or [undefined], make it throw as well, with
    the text of the [TypeError] of the property that could not be read. *)
Theorem storeBlob_normalizes_reply
    (env : Env) (this : WalrusClient) (st st1 : state) (cfg : WalrusConfig)
    (data : string) (epochs : Js.number) (body : list byte) (reply : Js.value) :
  heap st !! config this = Some cfg ->
  blob_data env data st = (Return body, st1) ->
  http_put env (publisherUrl cfg +:+ "/v1/store") body
           (Js.number_to_string epochs) = Return reply ->
  let result := fst (storeBlob env this data epochs st) in
  let created := Js.prop reply "newlyCreated" in
  let blobObject := Js.prop created "blobObject" in
  let resourceObject := Js.prop created "resourceObject" in
  let known := Js.prop reply "alreadyCertified" in
  (Js.truthy created = true -> Js.nullish blobObject = false ->
   result
   = Return {| blobId := Js.prop blobObject "blobId";
               size := Js.prop blobObject "size";
               encodedSize := Js.prop blobObject "encodedSize";
               storageId := Js.prop blobObject "id";
               certified := Js.truthy resourceObject;
               certifiedEpoch :=
                 Js.opt_prop (Js.opt_prop resourceObject "storage") "startEpoch";
               endEpoch :=
                 Js.opt_prop (Js.opt_prop resourceObject "storage") "endEpoch" |})
  /\ (Js.truthy created = false -> Js.truthy known = true ->
      result
      = Return {| blobId := Js.prop known "blobId";
                  size := Js.VNumber (Js.Num 0);
                  encodedSize := Js.VNumber (Js.Num 0);
                  storageId := Js.prop known "blobId";
                  certified := true;
                  certifiedEpoch := Js.prop known "certifiedEpoch";
                  endEpoch := Js.prop known "endEpoch" |})
  /\ (Js.nullish reply = false ->
      Js.truthy created = false -> Js.truthy known = false ->
      result
      = Throw (JsError
          "Failed to store blob: Unexpected response format from Walrus publisher"))
  /\ (Js.truthy created = true -> Js.nullish blobObject = true ->
      result
      = Throw (JsError
          ("Failed to store blob: Cannot read properties of "
           +:+ Js.to_string blobObject +:+ " (reading 'blobId')")))
  /\ (Js.nullish reply = true ->
      result
      = Throw (JsError
          ("Failed to store blob: Cannot read properties of "
           +:+ Js.to_string reply +:+ " (reading 'newlyCreated')")))
  /\ ((exists info, result = Return info)
      <-> (Js.truthy created = true /\ Js.nullish blobObject = false)
          \/ (Js.truthy created = false /\ Js.truthy known = true)).
Proof.
  intros Hcfg Hdata Hput result created blobObject resourceObject known.
  subst result.
  rewrite (storeBlob_after_put env this st cfg data epochs body st1 reply
             Hcfg Hdata Hput).
  unfold try_catch.
  set (st2 := sent st1 (publisherUrl cfg +:+ "/v1/store") body
                   (Js.number_to_string epochs)).
  assert (Hcreated : Js.truthy created = true -> Js.nullish blobObject = false ->
                     exists info, normalize_reply reply st2 = (Return info, st2))
    by (intros Hnc Hbo; rewrite normalize_newlyCreated by assumption; eauto).
  assert (Hknown : Js.truthy created = false -> Js.truthy known = true ->
                   exists info, normalize_reply reply st2 = (Return info, st2))
    by (intros Hnc Hac; rewrite normalize_alreadyCertified by assumption; eauto).
  split; [| split; [| split; [| split; [| split]]]].
  - intros Hnc Hbo. now rewrite normalize_newlyCreated.
  - intros Hnc Hac. now rewrite normalize_alreadyCertified.
  - intros Hnull Hnc Hac. rewrite normalize_neither by assumption.
    now rewrite Hnull.
  - intros Hnc Hbo. now rewrite normalize_without_blobObject.
  - intros Hnull. rewrite normalize_neither.
    + now rewrite Hnull.
    + now destruct reply.
    + now destruct reply.
  - split.
    + intros [info Hinfo].
      destruct (Js.truthy created) eqn:Hnc.
      * left. split; [reflexivity |].
        destruct (Js.nullish blobObject) eqn:Hbo; [| reflexivity].
        rewrite normalize_without_blobObject in Hinfo by assumption.
        discriminate Hinfo.
      * right. split; [reflexivity |].
        destruct (Js.truthy known) eqn:Hac; [reflexivity |].
        rewrite normalize_neither in Hinfo by assumption.
        discriminate Hinfo.
    + intros [[Hnc Hbo] | [Hnc Hac]].
      * destruct (Hcreated Hnc Hbo) as [info ->]. now exists info.
      * destruct (Hknown Hnc Hac) as [info ->]. now exists info.
Qed.

(** A synthetic [newlyCreated] reply with [size = 42] gives a result whose
    [size] is 42; a synthetic [alreadyCertified] reply, which has no size,
    gives size 0; an object with neither is refused. *)
Lemma storeBlob_normalizes_reply_witness :
  let result reply :=
    fst (storeBlob (demo_env reply) demo_client "SGVsbG8=" (Js.Num 5)
                   demo_state) in
  let size_of (o : outcome BlobInfo) :=
    match o with
    | Return info => Some (size info)
    | Throw _ => None
    end in
  size_of (result newlyCreated_reply) = Some (Js.VNumber (Js.Num 42))
  /\ size_of (result alreadyCertified_reply) = Some (Js.VNumber (Js.Num 0))
  /\ result (Js.VObject [("ok", Js.VBool true)])
     = Throw (JsError
         "Failed to store blob: Unexpected response format from Walrus publisher").
Proof.
  assert (Hreply : forall reply,
             http_put (demo_env reply)
                      (publisherUrl demo_config +:+ "/v1/store")
                      (Base64.decode "SGVsbG8=")
                      (Js.number_to_string (Js.Num 5)) = Return reply)
    by reflexivity.
  cbv zeta. split; [| split].
  - destruct (storeBlob_normalizes_reply
                (demo_env newlyCreated_reply) demo_client demo_state demo_state
                demo_config "SGVsbG8=" (Js.Num 5) (Base64.decode "SGVsbG8=")
                newlyCreated_reply eq_refl eq_refl (Hreply _))
      as (Hcreated & _).
    rewrite Hcreated; reflexivity.
  - destruct (storeBlob_normalizes_reply
                (demo_env alreadyCertified_reply) demo_client demo_state
                demo_state demo_config "SGVsbG8=" (Js.Num 5)
                (Base64.decode "SGVsbG8=") alreadyCertified_reply
                eq_refl eq_refl (Hreply _))
      as (_ & Hknown & _).
    rewrite Hknown; reflexivity.
  - destruct (storeBlob_normalizes_reply
                (demo_env (Js.VObject [("ok", Js.VBool true)])) demo_client
                demo_state demo_state demo_config "SGVsbG8=" (Js.Num 5)
                (Base64.decode "SGVsbG8=") (Js.VObject [("ok", Js.VBool true)])
                eq_refl eq_refl (Hreply _))
      as (_ & _ & Hneither & _).
    apply Hneither; reflexivity.
Defined.

(** A reply that carries a [newlyCreated] object with nothing in it does
    not become a [BlobInfo], and a reply that is [null] carries neither shape
    and is not reported as an unexpected format: both end in the text of a
    [TypeError]. *)
Lemma storeBlob_reply_counterexample :
  fst (storeBlob (demo_env (Js.VObject [("newlyCreated", Js.VObject [])]))
                 demo_client "SGVsbG8=" (Js.Num 5) demo_state)
  = Throw (JsError
      "Failed to store blob: Cannot read properties of undefined (reading 'blobId')")
  /\ fst (storeBlob (demo_env Js.VNull) demo_client "SGVsbG8=" (Js.Num 5)
                    demo_state)
     = Throw (JsError
         "Failed to store blob: Cannot read properties of null (reading 'newlyCreated')").
Proof. split; reflexivity. Qed.

(** A synthetic [alreadyCertified] reply, which has no size, gives size 0. *)
Example storeBlob_alreadyCertified_size :
  fst (storeBlob (demo_env alreadyCertified_reply) demo_client
                 "SGVsbG8=" (Js.Num 5) demo_state)
  = Return {| blobId := Js.VString "blob-1";
              size := Js.VNumber (Js.Num 0);
              encodedSize := Js.VNumber (Js.Num 0);
              storageId := Js.VString "blob-1";
              certified := true;
              certifiedEpoch := Js.VNumber (Js.Num 3);
              endEpoch := Js.VNumber (Js.Num 8) |}.
Proof. reflexivity. Qed.

(** A reply of another shape is refused. *)
Example storeBlob_unexpected_reply :
  fst (storeBlob (demo_env (Js.VObject [("ok", Js.VBool true)])) demo_client
                 "SGVsbG8=" (Js.Num 5) demo_state)
  = Throw (JsError
      "Failed to store blob: Unexpected response format from Walrus publisher").
Proof. reflexivity. Qed.

(** ** C2 and C10: the payload of [storeBlob] *)

Lemma append_String c (s r : string) : String c s +:+ r = String c (s +:+ r).
Proof. reflexivity. Qed.

Lemma startsWith_spec (s p : string) :
  Js.startsWith s p = true <-> exists rest, s = p +:+ rest.
Proof.
  unfold Js.startsWith. revert s. induction p as [| c p IH]; intros s.
  - split; [intros _; now exists s | intros _; now destruct s].
  - destruct s as [| d s]; simpl.
    + split; [discriminate | intros [rest Hrest]; now rewrite append_String in Hrest].
    + destruct (ascii_dec c d) as [-> | Hne].
      * rewrite IH.
        split; intros [rest Hrest]; exists rest; rewrite append_String in *;
          congruence.
      * split; [discriminate |].
        intros [rest Hrest]. rewrite append_String in Hrest. congruence.
Qed.

Lemma is_file_path_spec (data : string) :
  is_file_path data = true
  <-> exists rest,
        data = "/" +:+ rest \/ data = "./" +:+ rest \/ data = "../" +:+ rest.
Proof.
  unfold is_file_path. rewrite !orb_true_iff, !startsWith_spec.
  split.
  - intros [[[r H] | [r H]] | [r H]]; exists r; auto.
  - intros [r [H | [H | H]]]; eauto.
Qed.

Section Payload.

Variables (env : Env) (this : WalrusClient) (st : state) (cfg : WalrusConfig).
Variables (data : string) (epochs : Js.number).
Hypothesis config_allocated : heap st !! config this = Some cfg.

Let url := publisherUrl cfg +:+ "/v1/store".
Let params := Js.number_to_string epochs.

Lemma normalize_reply_state reply s : snd (normalize_reply reply s) = s.
Proof.
  unfold normalize_reply, bind, get_prop, throw, ret.
  repeat match goal with
         | |- context [if ?b then _ else _] => destruct b; simpl
         end; reflexivity.
Qed.

Lemma storeBlob_catch_state error s : snd (storeBlob_catch error s) = s.
Proof. now destruct error. Qed.

Lemma storeBlob_finish_state reply s :
  snd (try_catch (normalize_reply reply) storeBlob_catch s) = s.
Proof.
  unfold try_catch. pose proof (normalize_reply_state reply s) as H.
  destruct (normalize_reply reply s) as [[error | info] s']; simpl in *; subst.
  - apply storeBlob_catch_state.
  - reflexivity.
Qed.

(** The request goes out as soon as the bytes are there. *)
Lemma storeBlob_log_with_body body st1 :
  blob_data env data st = (Return body, st1) ->
  log (snd (storeBlob env this data epochs st))
  = (log st1 ++ [EvPut url body params])%list.
Proof.
  intros Hdata. unfold storeBlob, try_catch.
  erewrite bind_Return by exact Hdata.
  pose proof config_allocated as Hcfg.
  rewrite <- (blob_data_heap env _ _ _ _ Hdata) in Hcfg.
  erewrite bind_Return by (apply deref_allocated; exact Hcfg).
  cbv zeta. fold url params. unfold bind at 1, io at 1.
  destruct (http_put env url body params) as [error | reply].
  - now rewrite storeBlob_catch_state.
  - pose proof (normalize_reply_state reply
      {| heap := heap st1; log := log st1 ++ [EvPut url body params] |}) as H.
    destruct (normalize_reply reply _) as [[error | info] s']; simpl in *; subst.
    + now rewrite storeBlob_catch_state.
    + reflexivity.
Qed.

Lemma storeBlob_log_no_body error st1 :
  blob_data env data st = (Throw error, st1) ->
  log (snd (storeBlob env this data epochs st)) = log st1.
Proof.
  intros Hdata. unfold storeBlob, try_catch.
  erewrite bind_Throw by exact Hdata.
  now rewrite storeBlob_catch_state.
Qed.

Lemma storeBlob_log_file :
  is_file_path data = true ->
  log (snd (storeBlob env this data epochs st))
  = (log st ++ EvReadFile data
               :: match fs_readFile env data with
                  | Return bytes => [EvPut url bytes params]
                  | Throw _ => []
                  end)%list.
Proof.
  intros Hpath.
  destruct (fs_readFile env data) as [error | bytes] eqn:Hread.
  - rewrite (storeBlob_log_no_body error
               {| heap := heap st; log := (log st ++ [EvReadFile data])%list |}).
    + reflexivity.
    + unfold blob_data, io. now rewrite Hpath, Hread.
  - rewrite (storeBlob_log_with_body bytes
               {| heap := heap st; log := (log st ++ [EvReadFile data])%list |}).
    + simpl. now rewrite <- app_assoc.
    + unfold blob_data, io. now rewrite Hpath, Hread.
Qed.

Lemma storeBlob_log_base64 :
  is_file_path data = false ->
  log (snd (storeBlob env this data epochs st))
  = (log st ++ [EvPut url (Base64.decode data) params])%list.
Proof.
  intros Hpath. apply storeBlob_log_with_body.
  unfold blob_data. now rewrite Hpath.
Qed.

End Payload.

(** C2. The events [storeBlob] adds to the log, for a client whose
    configuration is in place: a file is read if and only if the payload
    starts with [/], [./] or [../], and then it is the file named by the
    payload, whose bytes are the body of the request; every other payload is
    decoded as base64 and the decoded bytes are the body of the request. *)
Theorem storeBlob_reads_file_iff_path_prefix
    (env : Env) (this : WalrusClient) (st : state) (cfg : WalrusConfig)
    (data : string) (epochs : Js.number) :
  heap st !! config this = Some cfg ->
  let url := publisherUrl cfg +:+ "/v1/store" in
  let params := Js.number_to_string epochs in
  let events :=
    drop (length (log st)) (log (snd (storeBlob env this data epochs st))) in
  (is_file_path data = true
   <-> exists rest,
         data = "/" +:+ rest \/ data = "./" +:+ rest \/ data = "../" +:+ rest)
  /\ ((exists file, In (EvReadFile file) events) <-> is_file_path data = true)
  /\ (is_file_path data = true ->
      events = EvReadFile data
               :: match fs_readFile env data with
                  | Return bytes => [EvPut url bytes params]
                  | Throw _ => []
                  end)
  /\ (is_file_path data = false ->
      events = [EvPut url (Base64.decode data) params]).
Proof.
  intros Hcfg url params events.
  assert (Hfile : is_file_path data = true ->
                  events = EvReadFile data
                           :: match fs_readFile env data with
                              | Return bytes => [EvPut url bytes params]
                              | Throw _ => []
                              end).
  { intros Hpath. subst events.
    rewrite (storeBlob_log_file env this st cfg data epochs Hcfg Hpath).
    apply drop_app_length. }
  assert (Hb64 : is_file_path data = false ->
                 events = [EvPut url (Base64.decode data) params]).
  { intros Hpath. subst events.
    rewrite (storeBlob_log_base64 env this st cfg data epochs Hcfg Hpath).
    apply drop_app_length. }
  split; [apply is_file_path_spec |].
  split; [| split; assumption].
  destruct (is_file_path data) eqn:Hpath.
  - split; [reflexivity |]. intros _. exists data.
    rewrite Hfile by reflexivity. now left.
  - split; [| discriminate]. intros [file Hin].
    rewrite Hb64 in Hin by reflexivity.
    destruct Hin as [[=] | []].
Qed.

(** [store("SGVsbG8=")] sends the five bytes of [Hello]. *)
Lemma storeBlob_reads_file_iff_path_prefix_witness :
  drop (length (log demo_state))
       (log (snd (storeBlob (demo_env newlyCreated_reply) demo_client
                            "SGVsbG8=" (Js.Num 5) demo_state)))
  = [EvPut "https://publisher-devnet.walrus.space/v1/store"
           (list_byte_of_string "Hello") "5"].
Proof.
  destruct (storeBlob_reads_file_iff_path_prefix
              (demo_env newlyCreated_reply) demo_client demo_state demo_config
              "SGVsbG8=" (Js.Num 5)) as (_ & _ & _ & Hbase64);
    [reflexivity |].
  apply Hbase64. reflexivity.
Defined.

(** [store("./fixtures/a.bin")] reads that file and sends its bytes. *)
Example storeBlob_sends_file_bytes :
  log (snd (storeBlob (demo_env newlyCreated_reply) demo_client
                      "./fixtures/a.bin" (Js.Num 5) demo_state))
  = [EvReadFile "./fixtures/a.bin";
     EvPut "https://publisher-devnet.walrus.space/v1/store"
           [x01; x02; x03]%byte "5"].
Proof. reflexivity. Qed.

(** A payload that only looks like a path further on is base64 all the
    same: no file is read. *)
Example storeBlob_inner_slash_is_base64 :
  log (snd (storeBlob (demo_env newlyCreated_reply) demo_client
                      "a/./../b" (Js.Num 5) demo_state))
  = [EvPut "https://publisher-devnet.walrus.space/v1/store"
           (Base64.decode "a/./../b") "5"].
Proof. reflexivity. Qed.

(** C10. For a payload that is no file path the decoding step cannot fail:
    the decoder gives a byte buffer for every string, the request with that
    buffer as body always goes out, and what [storeBlob] then returns or
    throws is settled by the answer of the write endpoint alone.  A payload
    that is not valid base64 is therefore stored, not refused. *)
Theorem storeBlob_base64_is_never_rejected
    (env : Env) (this : WalrusClient) (st : state) (cfg : WalrusConfig)
    (data : string) (epochs : Js.number) :
  heap st !! config this = Some cfg ->
  is_file_path data = false ->
  let url := publisherUrl cfg +:+ "/v1/store" in
  let params := Js.number_to_string epochs in
  let body := Base64.decode data in
  blob_data env data st = (Return body, st)
  /\ log (snd (storeBlob env this data epochs st))
     = (log st ++ [EvPut url body params])%list
  /\ (forall reply,
         http_put env url body params = Return reply ->
         storeBlob env this data epochs st
         = try_catch (normalize_reply reply) storeBlob_catch
                     (sent st url body params))
  /\ (forall error,
         http_put env url body params = Throw error ->
         storeBlob env this data epochs st
         = storeBlob_catch error (sent st url body params)).
Proof.
  intros Hcfg Hpath url params body.
  assert (Hdata : blob_data env data st = (Return body, st)).
  { unfold blob_data. now rewrite Hpath. }
  split; [exact Hdata |].
  split; [now apply storeBlob_log_base64 |].
  split.
  - intros reply Hput. now apply storeBlob_after_put.
  - intros error Hput. unfold storeBlob, try_catch.
    erewrite bind_Return by exact Hdata.
    erewrite bind_Return by (apply deref_allocated; exact Hcfg).
    cbv zeta. fold url params body.
    erewrite bind_Throw by (unfold io; rewrite Hput; reflexivity).
    reflexivity.
Qed.

(** A payload that is no base64 at all is decoded (its characters outside
    the alphabet are skipped) and stored. *)
Lemma storeBlob_base64_is_never_rejected_witness :
  storeBlob (demo_env alreadyCertified_reply) demo_client
            "not base64, at all!" (Js.Num 5) demo_state
  = (Return {| blobId := Js.VString "blob-1";
               size := Js.VNumber (Js.Num 0);
               encodedSize := Js.VNumber (Js.Num 0);
               storageId := Js.VString "blob-1";
               certified := true;
               certifiedEpoch := Js.VNumber (Js.Num 3);
               endEpoch := Js.VNumber (Js.Num 8) |},
     sent demo_state "https://publisher-devnet.walrus.space/v1/store"
          (Base64.decode "notbase64atall") "5").
Proof.
  destruct (storeBlob_base64_is_never_rejected
              (demo_env alreadyCertified_reply) demo_client demo_state
              demo_config "not base64, at all!" (Js.Num 5))
    as (_ & _ & Hreply & _); [reflexivity | reflexivity |].
  rewrite (Hreply alreadyCertified_reply) by reflexivity.
  vm_compute. reflexivity.
Defined.

(** ** C5 and C6: the read endpoint *)

Lemma remote_or_transport_spec message response :
  remote_or_transport message response
  = if Js.truthy (remote_error response)
    then Js.to_string (remote_error response)
    else message.
Proof.
  unfold remote_or_transport, Js.or.
  now destruct (Js.truthy (remote_error response)).
Qed.

(** C5. [getBlob], for a client whose configuration is in place.  When the
    read endpoint answers with bytes, the result is their base64 text, which
    decodes to those bytes.  When it answers 404, the error is
    [Blob not found: <id>], which carries the requested identifier.  On every
    other failure the error is [Failed to retrieve blob: ] followed by the
    message of the failure itself, whatever the body of the response holds:
    the request asks for an [arraybuffer], so the body reaches the [catch]
    clause as a [Buffer], and the [error] the clause looks up in it is never
    there. *)
Theorem getBlob_outcomes
    (env : Env) (this : WalrusClient) (st : state) (cfg : WalrusConfig)
    (id : string) :
  heap st !! config this = Some cfg ->
  let url := aggregatorUrl cfg +:+ "/v1/" +:+ id in
  let result := fst (getBlob env this id st) in
  (forall bytes,
      http_get env url = Fulfilled bytes ->
      result = Return (Base64.encode bytes)
      /\ Base64.decode (Base64.encode bytes) = bytes)
  /\ (forall message body,
         http_get env url = Rejected message (Some (404%Z, body)) ->
         result = Throw (JsError ("Blob not found: " +:+ id)))
  /\ (forall message code body,
         http_get env url = Rejected message (Some (code, body)) ->
         code <> 404%Z ->
         result = Throw (JsError ("Failed to retrieve blob: " +:+ message)))
  /\ (forall message,
         http_get env url = Rejected message None ->
         result = Throw (JsError ("Failed to retrieve blob: " +:+ message)))
  /\ (forall message,
         http_get env url = Failed message ->
         result = Throw (JsError ("Failed to retrieve blob: " +:+ message)))
  /\ (forall v,
         http_get env url = Raised v ->
         result = Throw (JsError ("Failed to retrieve blob: "
                                  +:+ Js.to_string v))).
Proof.
  intros Hcfg url result. subst result.
  unfold getBlob, try_catch.
  erewrite bind_Return by (apply deref_allocated; exact Hcfg).
  cbv zeta. fold url. unfold bind, io, ret, throw.
  split; [| split; [| split; [| split; [| split]]]].
  - intros bytes ->. split; [reflexivity | apply Base64Facts.decode_encode].
  - intros message body ->. reflexivity.
  - intros message code body -> Hcode. simpl.
    destruct (decide _) as [[= Hstatus] | _]; [contradiction | reflexivity].
  - intros message ->. reflexivity.
  - intros message ->. reflexivity.
  - intros v ->. reflexivity.
Qed.

(** The read endpoint answers 500 and writes [{ error: ... }] in the body:
    the error of [getBlob] has the text of the transport, not the remote's.
    A 404 answer is reported as [Blob not found] with the identifier, and
    the five bytes of [Hello] come back as eight characters of base64. *)
Lemma getBlob_outcomes_witness :
  fst (getBlob demo_env_500 demo_client "blob-1" demo_state)
  = Throw (JsError
      "Failed to retrieve blob: Request failed with status code 500")
  /\ fst (getBlob demo_env_404 demo_client "blob-1" demo_state)
     = Throw (JsError "Blob not found: blob-1")
  /\ fst (getBlob (demo_env Js.VNull) demo_client "blob-1" demo_state)
     = Return "SGVsbG8=".
Proof.
  split; [| split].
  - destruct (getBlob_outcomes demo_env_500 demo_client demo_state demo_config
                "blob-1") as (_ & _ & Hother & _); [reflexivity |].
    apply (Hother "Request failed with status code 500" 500%Z
                  (list_byte_of_string (Js.JSON_stringify remote_failure)));
      [reflexivity | lia].
  - destruct (getBlob_outcomes demo_env_404 demo_client demo_state demo_config
                "blob-1") as (_ & Hmissing & _); [reflexivity |].
    apply (Hmissing "Request failed with status code 404" []).
    reflexivity.
  - destruct (getBlob_outcomes (demo_env Js.VNull) demo_client demo_state
                demo_config "blob-1") as (Hbytes & _); [reflexivity |].
    destruct (Hbytes (list_byte_of_string "Hello") eq_refl) as [Hresult _].
    rewrite Hresult. reflexivity.
Defined.

(** The same answer to [storeBlob], whose request leaves the body to be
    parsed, is reported with the remote's text. *)
Example storeBlob_carries_remote_error :
  fst (storeBlob demo_env_500 demo_client "SGVsbG8=" (Js.Num 5) demo_state)
  = Throw (JsError "Failed to store blob: blob store is full").
Proof. reflexivity. Qed.

(** Five bytes come back as eight characters of base64. *)
Example getBlob_returns_base64 :
  fst (getBlob (demo_env Js.VNull) demo_client "blob-1" demo_state)
  = Return "SGVsbG8=".
Proof. reflexivity. Qed.

(** C6. [getBlobInfo], for a client whose configuration is in place.  When
    the header-only probe succeeds, the result has [certified = true] whatever
    the headers are, the identifier as [blobId] and [storageId], and as size
    and encoded size what [parseInt] makes of the [content-length] header: 0
    when the header is absent or empty; for the decimal numeral of [n] the
    number [n] itself up to [2^53], and beyond that the double nearest to
    [n], a multiple of the unit in the last place of [n] at most half a unit
    away from it (no infinity below [2^1023]).  A 404 answer is the error
    [Blob not found: <id>]; every other failure is an error
    [Failed to get blob info: ...], with the [error] of the response's body
    when it holds one, else with the message of the failure. *)
Theorem getBlobInfo_outcomes
    (env : Env) (this : WalrusClient) (st : state) (cfg : WalrusConfig)
    (id : string) :
  heap st !! config this = Some cfg ->
  let url := aggregatorUrl cfg +:+ "/v1/" +:+ id in
  let result := fst (getBlobInfo env this id st) in
  (forall headers : gmap string string,
      http_head env url = Return headers ->
      exists info,
        result = Return info
        /\ certified info = true
        /\ blobId info = Js.VString id
        /\ storageId info = Js.VString id
        /\ encodedSize info = size info
        /\ (headers !! "content-length" = None
            \/ headers !! "content-length" = Some "" ->
            size info = Js.VNumber (Js.Num 0))
        /\ (forall text, headers !! "content-length" = Some text ->
                         text <> "" ->
                         size info = Js.VNumber (Js.parseInt text))
        /\ (forall n : N,
               headers !! "content-length"
               = Some (NilZero.string_of_uint (N.to_uint n)) ->
               let z := Z.of_N n in
               let ulp := (2 ^ (Z.log2 z - 52))%Z in
               ((z <= 2 ^ 53)%Z -> size info = Js.VNumber (Js.Num z))
               /\ ((z < 2 ^ 1023)%Z ->
                   exists m, size info = Js.VNumber (Js.Num m))
               /\ (forall m, (2 ^ 53 <= z)%Z ->
                             size info = Js.VNumber (Js.Num m) ->
                             (ulp | m)%Z
                             /\ (2 * Z.abs (m - z) <= ulp)%Z
                             /\ (m <= 2 ^ 53 * ulp)%Z)))
  /\ (forall message body,
         http_head env url
         = Throw (AxiosError message (Some {| status := 404; data := body |})) ->
         result = Throw (JsError ("Blob not found: " +:+ id)))
  /\ (forall message code v,
         http_head env url
         = Throw (AxiosError message
                    (Some {| status := code; data := Parsed v |})) ->
         code <> 404%Z ->
         result
         = Throw (JsError
             ("Failed to get blob info: "
              +:+ (if Js.truthy (Js.opt_prop v "error")
                   then Js.to_string (Js.opt_prop v "error")
                   else message))))
  /\ (forall message code bytes,
         http_head env url
         = Throw (AxiosError message
                    (Some {| status := code; data := Binary bytes |})) ->
         code <> 404%Z ->
         result = Throw (JsError ("Failed to get blob info: " +:+ message)))
  /\ (forall message,
         http_head env url = Throw (AxiosError message None) ->
         result = Throw (JsError ("Failed to get blob info: " +:+ message)))
  /\ (forall error,
         http_head env url = Throw error ->
         isAxiosError error = false ->
         result = Throw (JsError ("Failed to get blob info: "
                                  +:+ message_of error))).
Proof.
  intros Hcfg url result. subst result.
  unfold getBlobInfo, try_catch.
  erewrite bind_Return by (apply deref_allocated; exact Hcfg).
  cbv zeta. fold url. unfold bind, io, ret, throw.
  split; [| split; [| split; [| split; [| split]]]].
  - intros headers ->. cbn [fst]. eexists. split; [reflexivity |].
    cbn [certified blobId storageId encodedSize size].
    assert (Htext : forall text, headers !! "content-length" = Some text ->
                      text <> "" ->
                      Js.VNumber (Js.parseInt
                        (or_else (headers !! "content-length") "0"))
                      = Js.VNumber (Js.parseInt text)).
    { intros text -> Hne. cbn [or_else].
      destruct (String.eqb_spec text ""); [contradiction | reflexivity]. }
    do 4 (split; [reflexivity |]).
    split; [| split].
    + now intros [-> | ->].
    + exact Htext.
    + intros n Hn. rewrite (Htext _ Hn) by apply ParseIntFacts.numeral_not_empty.
      rewrite ParseIntFacts.parseInt_decimal.
      change (2 ^ 53)%Z with Js.safe_bound.
      split; [| split].
      * intros Hsafe. rewrite ParseIntFacts.number_value_exact; [reflexivity | lia].
      * intros Hfinite.
        destruct (ParseIntFacts.number_value_finite (Z.of_N n)) as [m ->];
          [lia | eauto].
      * intros m Hbig [= Hm].
        exact (ParseIntFacts.number_value_nearest _ _ Hbig Hm).
  - intros message body ->. reflexivity.
  - intros message code v -> Hcode. cbn [fst].
    destruct (decide _) as [[= Hstatus] | _]; [contradiction |].
    now rewrite remote_or_transport_spec.
  - intros message code bytes -> Hcode. cbn [fst].
    destruct (decide _) as [[= Hstatus] | _]; [contradiction | reflexivity].
  - intros message ->. reflexivity.
  - intros error -> Haxios. now destruct error.
Qed.

(** A probe answered with [content-length: 5] gives size 5, certified; one
    answered 404 is reported as [Blob not found] with the identifier; one
    answered 500 as a failure of the operation. *)
Lemma getBlobInfo_outcomes_witness :
  (exists info,
      fst (getBlobInfo (demo_env Js.VNull) demo_client "blob-1" demo_state)
      = Return info
      /\ certified info = true
      /\ size info = Js.VNumber (Js.Num 5))
  /\ fst (getBlobInfo demo_env_404 demo_client "blob-1" demo_state)
     = Throw (JsError "Blob not found: blob-1")
  /\ fst (getBlobInfo demo_env_500 demo_client "blob-1" demo_state)
     = Throw (JsError
         "Failed to get blob info: Request failed with status code 500").
Proof.
  split; [| split].
  - destruct (getBlobInfo_outcomes (demo_env Js.VNull) demo_client demo_state
                demo_config "blob-1") as (Hfound & _); [reflexivity |].
    destruct (Hfound {[ "content-length" := "5" ]} eq_refl)
      as (info & Hresult & Hcertified & _ & _ & _ & _ & _ & Hsize).
    exists info. split; [exact Hresult |]. split; [exact Hcertified |].
    destruct (Hsize 5%N eq_refl) as (Hexact & _).
    apply Hexact. vm_compute. discriminate.
  - destruct (getBlobInfo_outcomes demo_env_404 demo_client demo_state
                demo_config "blob-1") as (_ & Hmissing & _); [reflexivity |].
    exact (Hmissing "Request failed with status code 404"
                    (Parsed (Js.VString "")) eq_refl).
  - destruct (getBlobInfo_outcomes demo_env_500 demo_client demo_state
                demo_config "blob-1") as (_ & _ & Hother & _); [reflexivity |].
    apply (Hother "Request failed with status code 500" 500%Z (Js.VString ""));
      [reflexivity | lia].
Defined.

(** A header beyond [2^53]: the size is the nearest double, not the integer
    the header holds. *)
Lemma getBlobInfo_counterexample :
  exists info,
    fst (getBlobInfo (demo_env_probe {[ "content-length" := "9007199254740993" ]})
                     demo_client "blob-1" demo_state)
    = Return info
    /\ size info = Js.VNumber (Js.Num 9007199254740992)
    /\ size info <> Js.VNumber (Js.Num 9007199254740993).
Proof.
  eexists. split; [vm_compute; reflexivity |]. split; [reflexivity | discriminate].
Qed.

(** Without the header the size is 0; a header that is no number gives
    [NaN], one that starts with a number that number, one past the largest
    double an infinity. *)
Example getBlobInfo_size_of_header :
  Js.parseInt (or_else ((∅ : gmap string string) !! "content-length") "0")
  = Js.Num 0
  /\ Js.parseInt (or_else (Some "1024") "0") = Js.Num 1024
  /\ Js.parseInt (or_else (Some "chunked") "0") = Js.NaN
  /\ Js.parseInt (or_else (Some " 12 bytes") "0") = Js.Num 12
  /\ Js.parseInt (or_else (Some "0x1F") "0") = Js.Num 31
  /\ Js.number_value (10 ^ 309) = Js.Infinity false.
Proof. repeat split. Qed.

(** What [toString] and [JSON.stringify] write for a number. *)
Example number_texts :
  Js.number_to_string (Js.Num 5) = "5"
  /\ Js.number_to_string (Js.Num (-42)) = "-42"
  /\ Js.number_to_string (Js.Num 9007199254740992) = "9007199254740992"
  /\ Js.number_to_string (Js.Num (2 ^ 60)) = "1152921504606847000"
  /\ Js.number_to_string (Js.Num (10 ^ 21)) = "1e+21"
  /\ Js.number_to_string (Js.Num (2 ^ 70)) = "1.1805916207174113e+21"
  /\ Js.number_to_string (Js.Infinity true) = "-Infinity"
  /\ Js.JSON_stringify (Js.VArray [Js.VNumber (Js.Infinity false)])
     = "[" +:+ Js.newline +:+ "  null" +:+ Js.newline +:+ "]".
Proof. repeat split; vm_compute; reflexivity. Qed.

(** ** C3 and C4: the two handlers *)

Lemma try_catch_recovers {A} (body : action A) (recover : thrown -> A) st :
  try_catch body (fun error => ret (recover error)) st
  = match body st with
    | (Return a, st') => (Return a, st')
    | (Throw error, st') => (Return (recover error), st')
    end.
Proof. unfold try_catch, ret. now destruct (body st) as [[error | a] st']. Qed.



(** [call_tool("store_blob", {})]: an error envelope, nothing thrown. *)
Example call_tool_store_blob_without_data :
  call_tool (demo_env newlyCreated_reply) demo_client "store_blob"
            (Js.VObject []) demo_state
  = (Return {| content := [{| type := "text"; text := "Error: Required" |}];
               isError := Some true |},
     demo_state).
Proof. reflexivity. Qed.


(** [call_tool("nonexistent_tool", {})]: the envelope names the tool. *)
Example call_tool_nonexistent_tool :
  call_tool (demo_env newlyCreated_reply) demo_client "nonexistent_tool"
            (Js.VObject []) demo_state
  = (Return {| content :=
                 [{| type := "text";
                     text := "Error: Unknown tool: nonexistent_tool" |}];
               isError := Some true |},
     demo_state).
Proof. reflexivity. Qed.

(** An error of the client (here a 404 of the read endpoint) comes back
    as an envelope as well. *)
Example call_tool_get_blob_not_found :
  fst (call_tool demo_env_404 demo_client "get_blob"
                 (Js.VObject [("blobId", Js.VString "blob-1")]) demo_state)
  = Return {| content :=
                [{| type := "text";
                    text := "Error: Blob not found: blob-1" |}];
              isError := Some true |}.
Proof. reflexivity. Qed.

Lemma serve_answers_all env walrusClient requests st :
  length (fst (serve env walrusClient requests st)) = length requests.
Proof.
  revert st. induction requests as [| r rest IH]; intros st; simpl.
  - reflexivity.
  - destruct (dispatch env walrusClient r st) as [answer st'].
    specialize (IH st').
    destruct (serve env walrusClient rest st') as [answers st''].
    simpl in *. now rewrite IH.
Qed.

(** C4. Reading a resource whose URI is neither [walrus://status] nor
    [walrus://config] makes the handler throw an error that names the URI; it
    is not made an envelope.  The request loop answers that one request with a
    fault and goes on: the requests after it are served as they would have
    been, and every request gets its answer. *)
Theorem read_resource_unknown_uri_faults
    (env : Env) (walrusClient : WalrusClient) (the_uri : string) (st : state) :
  the_uri <> "walrus://status" ->
  the_uri <> "walrus://config" ->
  let fault := JsError ("Failed to read resource " +:+ the_uri
                        +:+ ": Unknown resource: " +:+ the_uri) in
  read_resource walrusClient the_uri st = (Throw fault, st)
  /\ (forall rest,
         serve env walrusClient (ReadResource the_uri :: rest) st
         = (Fault fault :: fst (serve env walrusClient rest st),
            snd (serve env walrusClient rest st)))
  /\ (forall before after st0,
         length (fst (serve env walrusClient
                            (before ++ ReadResource the_uri :: after) st0))
         = length before + 1 + length after).
Proof.
  intros Hstatus Hconfig fault.
  assert (Hread : read_resource walrusClient the_uri st = (Throw fault, st)).
  { unfold read_resource, try_catch.
    apply String.eqb_neq in Hstatus, Hconfig.
    now rewrite Hstatus, Hconfig. }
  split; [exact Hread |]. split.
  - intros rest. simpl. rewrite Hread.
    now destruct (serve env walrusClient rest st).
  - intros before after st0. rewrite serve_answers_all.
    rewrite length_app. simpl. lia.
Qed.

(** An unknown resource between two tool calls: the middle request faults,
    the third is answered all the same. *)
Lemma read_resource_unknown_uri_faults_witness :
  fst (serve (demo_env newlyCreated_reply) demo_client
             [ReadResource "walrus://nope";
              CallTool "delete_blob"
                       (Js.VObject [("blobId", Js.VString "blob-1")])]
             demo_state)
  = [Fault (JsError
       "Failed to read resource walrus://nope: Unknown resource: walrus://nope");
     ToolResult
       (text_result
          (Js.JSON_stringify
             (DeleteResult_to_value
                {| success := false; message := delete_message |})))].
Proof.
  destruct (read_resource_unknown_uri_faults
              (demo_env newlyCreated_reply) demo_client "walrus://nope"
              demo_state) as (_ & Hserve & _); [discriminate | discriminate |].
  rewrite Hserve. reflexivity.
Defined.

(** ** C9: [getConfig] hands out a copy *)

Lemma alloc_run obj st :
  alloc obj st
  = (Return (fresh (dom (heap st))),
     {| heap := <[fresh (dom (heap st)) := obj]> (heap st); log := log st |}).
Proof. reflexivity. Qed.

Lemma fresh_unallocated (h : gmap positive WalrusConfig) :
  h !! fresh (dom h) = None.
Proof. apply not_elem_of_dom, is_fresh. Qed.

Lemma getConfig_run this st cfg :
  heap st !! config this = Some cfg ->
  getConfig this st
  = (Return (fresh (dom (heap st))),
     {| heap := <[fresh (dom (heap st)) := cfg]> (heap st); log := log st |}).
Proof.
  intros Hcfg. unfold getConfig.
  erewrite bind_Return by (apply deref_allocated; exact Hcfg).
  apply alloc_run.
Qed.

(** C9. [getConfig], for a client whose configuration is in place, returns
    a reference to a new object that holds the same values as the client's
    configuration and is a different object.  Whatever is then assigned to
    the returned object, the client's configuration stays what it was, the
    next [getConfig] again returns an object with the original values, and
    reading the resource [walrus://config] serialises the original values. *)
Theorem getConfig_returns_a_copy
    (this : WalrusClient) (st : state) (cfg : WalrusConfig) :
  heap st !! config this = Some cfg ->
  exists snapshot st',
    getConfig this st = (Return snapshot, st')
    /\ heap st' !! snapshot = Some cfg
    /\ snapshot <> config this
    /\ heap st !! snapshot = None
    /\ forall changed : WalrusConfig,
         let st'' := assign snapshot changed st' in
         heap st'' !! snapshot = Some changed
         /\ heap st'' !! config this = Some cfg
         /\ (exists again st''',
                getConfig this st'' = (Return again, st''')
                /\ heap st''' !! again = Some cfg)
         /\ fst (read_resource this "walrus://config" st'')
            = Return [{| uri := "walrus://config";
                         mimeType := "application/json";
                         resource_text :=
                           Js.JSON_stringify (WalrusConfig_to_value cfg) |}].
Proof.
  intros Hcfg.
  set (snapshot := fresh (dom (heap st))).
  assert (Hnew : heap st !! snapshot = None) by apply fresh_unallocated.
  assert (Hne : snapshot <> config this) by congruence.
  eexists snapshot, _. split; [exact (getConfig_run this st cfg Hcfg) |]. simpl.
  split; [apply lookup_insert_eq |].
  split; [exact Hne |]. split; [exact Hnew |].
  intros changed.
  assert (Hkept : heap (assign snapshot changed
                    {| heap := <[snapshot := cfg]> (heap st); log := log st |})
                  !! config this = Some cfg).
  { simpl. rewrite !lookup_insert_ne by exact Hne. exact Hcfg. }
  split; [apply lookup_insert_eq |]. split; [exact Hkept |]. split.
  - eexists _, _. split; [exact (getConfig_run this _ cfg Hkept) |].
    apply lookup_insert_eq.
  - unfold read_resource, try_catch. simpl.
    erewrite bind_Return by exact (getConfig_run this _ cfg Hkept).
    erewrite bind_Return
      by (apply deref_allocated; simpl; apply lookup_insert_eq).
    reflexivity.
Qed.

(** Overwriting every field of the returned object leaves the next
    [getConfig] with the original values. *)
Lemma getConfig_returns_a_copy_witness :
  exists snapshot st',
    getConfig demo_client demo_state = (Return snapshot, st')
    /\ snapshot <> config demo_client
    /\ exists again st''',
         getConfig demo_client
           (assign snapshot
                   {| aggregatorUrl := "http://evil.example";
                      publisherUrl := "http://evil.example";
                      systemObject := "0x0";
                      wallet := Some "/tmp/wallet" |} st')
         = (Return again, st''')
         /\ heap st''' !! again = Some demo_config.
Proof.
  destruct (getConfig_returns_a_copy demo_client demo_state demo_config)
    as (snapshot & st' & Hget & _ & Hne & _ & Hafter); [reflexivity |].
  exists snapshot, st'. split; [exact Hget |]. split; [exact Hne |].
  destruct (Hafter {| aggregatorUrl := "http://evil.example";
                      publisherUrl := "http://evil.example";
                      systemObject := "0x0";
                      wallet := Some "/tmp/wallet" |})
    as (_ & _ & Hagain & _).
  exact Hagain.
Defined.

(** ** C7: the configuration resolved by the constructor *)

Lemma extends_ret {A} (a : A) : extends (ret a).
Proof. intros st. reflexivity. Qed.

Lemma extends_throw {A} error : extends (@throw A error).
Proof. intros st. reflexivity. Qed.

Lemma extends_lift {A} (o : outcome A) : extends (lift o).
Proof. intros st. reflexivity. Qed.

Lemma extends_io {A} ev (answer : outcome A) : extends (io ev answer).
Proof. intros st. reflexivity. Qed.

Lemma extends_deref {A} l name (field : WalrusConfig -> A) :
  extends (deref l name field).
Proof. intros st. unfold deref. now destruct (heap st !! l). Qed.

Lemma extends_get_prop v k : extends (get_prop v k).
Proof. intros st. unfold get_prop. now destruct (Js.nullish v). Qed.

Lemma extends_alloc obj : extends (alloc obj).
Proof. intros st. simpl. apply insert_subseteq, fresh_unallocated. Qed.

Lemma extends_bind {A B} (m : action A) (k : A -> action B) :
  extends m -> (forall a, extends (k a)) -> extends (bind m k).
Proof.
  intros Hm Hk st. unfold bind. specialize (Hm st).
  destruct (m st) as [[error | a] st']; simpl in *; [exact Hm |].
  etransitivity; [exact Hm | apply Hk].
Qed.

Lemma extends_try_catch {A} (body : action A) handler :
  extends body -> (forall error, extends (handler error)) ->
  extends (try_catch body handler).
Proof.
  intros Hbody Hhandler st. unfold try_catch. specialize (Hbody st).
  destruct (body st) as [[error | a] st']; simpl in *; [| exact Hbody].
  etransitivity; [exact Hbody | apply Hhandler].
Qed.

(** One step of a proof that an action extends the heap. *)
Ltac extends_step :=
  first
    [ apply extends_ret | apply extends_throw | apply extends_lift
    | apply extends_io | apply extends_deref | apply extends_get_prop
    | apply extends_alloc
    | apply extends_bind; [| intros ?]
    | apply extends_try_catch; [| intros ?]
    | match goal with
      | |- extends (if ?b then _ else _) => destruct b
      | |- extends (match ?e with _ => _ end) => destruct e
      end ].

Lemma extends_method env this call st :
  heap st ⊆ heap (invoke env this st call).
Proof.
  destruct call; unfold invoke;
    match goal with
    | |- _ ⊆ heap (snd (?m st)) => revert st; change (extends m)
    end.
  - unfold storeBlob, blob_data, normalize_reply, storeBlob_catch.
    repeat extends_step.
  - unfold getBlob. repeat extends_step.
  - unfold getBlobInfo. repeat extends_step.
  - unfold listBlobs. repeat extends_step.
  - unfold deleteBlob. repeat extends_step.
  - unfold getNetworkStatus. repeat extends_step.
  - unfold getConfig. repeat extends_step.
  - unfold blobExists. repeat extends_step.
Qed.

Lemma extends_lifetime env this calls st :
  heap st ⊆ heap (fold_left (invoke env this) calls st).
Proof.
  revert st. induction calls as [| call rest IH]; intros st; simpl.
  - reflexivity.
  - etransitivity; [apply (extends_method env this call) | apply IH].
Qed.

Lemma extends_call_tool env walrusClient name args :
  extends (call_tool env walrusClient name args).
Proof.
  unfold call_tool, storeBlob, blob_data, normalize_reply, storeBlob_catch,
    getBlob, getBlobInfo, listBlobs, deleteBlob.
  repeat extends_step.
Qed.

Lemma extends_read_resource walrusClient the_uri :
  extends (read_resource walrusClient the_uri).
Proof.
  unfold read_resource, getNetworkStatus, getConfig. repeat extends_step.
Qed.

Lemma extends_serve env walrusClient requests st :
  heap st ⊆ heap (snd (serve env walrusClient requests st)).
Proof.
  revert st. induction requests as [| r rest IH]; intros st; simpl.
  - reflexivity.
  - assert (Hstep : heap st ⊆ heap (snd (dispatch env walrusClient r st))).
    { destruct r as [name args | the_uri]; simpl.
      - pose proof (extends_call_tool env walrusClient name args st) as H.
        destruct (record_or_absent args); [| reflexivity].
        now destruct (call_tool env walrusClient name args st) as [[? | ?] ?].
      - pose proof (extends_read_resource walrusClient the_uri st) as H.
        now destruct (read_resource walrusClient the_uri st) as [[? | ?] ?]. }
    destruct (dispatch env walrusClient r st) as [answer st'].
    specialize (IH st').
    destruct (serve env walrusClient rest st') as [answers st''].
    simpl in *. etransitivity; eassumption.
Qed.

Lemma or_else_or_opt override variable fallback :
  or_else (or_opt override variable) fallback
  = chain override variable fallback.
Proof.
  unfold or_else, or_opt, chain, given.
  destruct override as [s |]; [destruct (String.eqb_spec s "") |];
    try destruct variable as [v |]; try destruct (String.eqb_spec v "");
    simpl; try reflexivity;
    repeat match goal with
           | |- context [String.eqb ?x ""] => destruct (String.eqb_spec x "")
           end; congruence.
Qed.

(** C7, as the source has it. For the read endpoint, the write endpoint and
    the system object id, the value resolved by the constructor is the
    override when it is given and not empty, else the environment variable
    when it is set and not empty, else the literal default.  The wallet path
    is the override when it is given and not empty, else whatever the
    environment variable holds; there is no literal behind it.  The object so
    resolved is the client's configuration, and no method of the client and
    no handled request changes it. *)
Theorem resolve_config_fallback_chain
    (env : Env) (cfg : option PartialConfig) (st0 : state) :
  let resolved := resolve_config env cfg in
  aggregatorUrl resolved
  = chain (cfg ≫= p_aggregatorUrl)
          (process_env env !! "WALRUS_AGGREGATOR_URL") default_aggregatorUrl
  /\ publisherUrl resolved
     = chain (cfg ≫= p_publisherUrl)
             (process_env env !! "WALRUS_PUBLISHER_URL") default_publisherUrl
  /\ systemObject resolved
     = chain (cfg ≫= p_systemObject)
             (process_env env !! "WALRUS_SYSTEM_OBJECT") default_systemObject
  /\ wallet resolved
     = match given (cfg ≫= p_wallet) with
       | Some path => Some path
       | None => process_env env !! "WALRUS_WALLET_PATH"
       end
  /\ exists this st1,
       constructor env cfg st0 = (Return this, st1)
       /\ heap st1 !! config this = Some resolved
       /\ (forall calls,
              heap (fold_left (invoke env this) calls st1) !! config this
              = Some resolved)
       /\ (forall requests,
              heap (snd (serve env this requests st1)) !! config this
              = Some resolved).
Proof.
  intros resolved. subst resolved.
  split; [apply or_else_or_opt |].
  split; [apply or_else_or_opt |].
  split; [apply or_else_or_opt |].
  split.
  - simpl. unfold or_opt, given.
    destruct (cfg ≫= p_wallet) as [s |]; [| reflexivity].
    now destruct (String.eqb_spec s "").
  - eexists _, _. split; [reflexivity |].
    assert (Hthere : heap {| heap := <[fresh (dom (heap st0)) :=
                                        resolve_config env cfg]> (heap st0);
                             log := log st0 |}
                     !! fresh (dom (heap st0))
                     = Some (resolve_config env cfg))
      by apply lookup_insert_eq.
    split; [exact Hthere |]. split.
    + intros calls.
      exact (lookup_weaken _ _ _ _ Hthere (extends_lifetime env _ calls _)).
    + intros requests.
      exact (lookup_weaken _ _ _ _ Hthere (extends_serve env _ requests _)).
Qed.

(** With no override and no environment variable the wallet path has no
    value at all: there is no default behind it.  And an override that is
    the empty string does not count: the environment variable is taken
    where the chain of the specification takes the override. *)
Lemma resolve_config_counterexample :
  wallet (resolve_config (demo_env Js.VNull) None) = None
  /\ aggregatorUrl (resolve_config demo_env_vars (Some empty_override))
     = "https://aggregator.example"
  /\ aggregatorUrl (resolve_config demo_env_vars (Some empty_override))
     <> spec_chain (p_aggregatorUrl empty_override)
                   (process_env demo_env_vars !! "WALRUS_AGGREGATOR_URL")
                   default_aggregatorUrl.
Proof.
  split; [reflexivity |]. split; [reflexivity |].
  intros H. vm_compute in H. discriminate H.
Qed.

(* ================================================================== *)
(** * Further properties of the client and the handlers                *)
(* ================================================================== *)

(** ** What the client throws *)

Lemma getBlob_throws env this id st error :
  fst (getBlob env this id st) = Throw error ->
  error = JsError ("Blob not found: " +:+ id)
  \/ exists text, error = JsError ("Failed to retrieve blob: " +:+ text).
Proof.
  unfold getBlob, try_catch.
  destruct (bind _ _ st) as [[caught | text] st']; simpl; [| discriminate].
  destruct caught as [message response | message | v]; simpl.
  - destruct (decide _); intros [= <-]; eauto.
  - intros [= <-]; eauto.
  - intros [= <-]; eauto.
Qed.

Lemma getBlobInfo_throws env this id st error :
  fst (getBlobInfo env this id st) = Throw error ->
  error = JsError ("Blob not found: " +:+ id)
  \/ exists text, error = JsError ("Failed to get blob info: " +:+ text).
Proof.
  unfold getBlobInfo, try_catch.
  destruct (bind _ _ st) as [[caught | text] st']; simpl; [| discriminate].
  destruct caught as [message response | message | v]; simpl.
  - destruct (decide _); intros [= <-]; eauto.
  - intros [= <-]; eauto.
  - intros [= <-]; eauto.
Qed.

Lemma storeBlob_throws env this the_data epochs st error :
  fst (storeBlob env this the_data epochs st) = Throw error ->
  exists text, error = JsError ("Failed to store blob: " +:+ text).
Proof.
  unfold storeBlob, try_catch.
  destruct (bind _ _ st) as [[caught | info] st']; simpl; [| discriminate].
  rewrite storeBlob_catch_throws. intros [= <-]. eauto.
Qed.

(** X1. Whatever the file system and the endpoints answer, and in every
    state, the three operations that talk to the outside never let a foreign
    error through: what [storeBlob] throws is an [Error] whose message starts
    with [Failed to store blob: ]; what [getBlob] and [getBlobInfo] throw is
    an [Error] that says [Blob not found: <id>] or starts with the
    operation's own prefix.  [listBlobs], [deleteBlob], [getNetworkStatus]
    and [blobExists] throw nothing. *)
Theorem client_errors_are_wrapped (env : Env) (this : WalrusClient) (st : state) :
  (forall the_data epochs error,
      fst (storeBlob env this the_data epochs st) = Throw error ->
      exists text, error = JsError ("Failed to store blob: " +:+ text))
  /\ (forall id error,
         fst (getBlob env this id st) = Throw error ->
         error = JsError ("Blob not found: " +:+ id)
         \/ exists text, error = JsError ("Failed to retrieve blob: " +:+ text))
  /\ (forall id error,
         fst (getBlobInfo env this id st) = Throw error ->
         error = JsError ("Blob not found: " +:+ id)
         \/ exists text, error = JsError ("Failed to get blob info: " +:+ text))
  /\ (forall limit error, fst (listBlobs this limit st) <> Throw error)
  /\ (forall id error, fst (deleteBlob this id st) <> Throw error)
  /\ (forall error, fst (getNetworkStatus this st) <> Throw error)
  /\ (forall id error, fst (blobExists env this id st) <> Throw error).
Proof.
  split; [intros; eapply storeBlob_throws; eassumption |].
  split; [intros; eapply getBlob_throws; eassumption |].
  split; [intros; eapply getBlobInfo_throws; eassumption |].
  repeat split; try discriminate.
  intros id error. unfold blobExists, try_catch.
  now destruct (bind _ _ st) as [[caught | b] st'].
Qed.

(** ** One request per call *)

Lemma requests_nil : requests [] = 0.
Proof. reflexivity. Qed.

Lemma requests_app evs evs' : requests (evs ++ evs') = requests evs + requests evs'.
Proof. unfold requests. now rewrite filter_app, length_app. Qed.

Lemma sends_weaken {A} n n' (m : action A) :
  n <= n' -> sends_at_most n m -> sends_at_most n' m.
Proof.
  intros Hle Hm st. destruct (Hm st) as (evs & Hlog & Hcount).
  exists evs. split; [exact Hlog | lia].
Qed.

Lemma sends_silent {A} (m : action A) :
  (forall st, snd (m st) = st) -> sends_at_most 0 m.
Proof.
  intros Hm st. exists []. rewrite Hm, app_nil_r. split; [reflexivity | rewrite requests_nil; lia].
Qed.

Lemma sends_ret {A} (a : A) : sends_at_most 0 (ret a).
Proof. now apply sends_silent. Qed.

Lemma sends_throw {A} error : sends_at_most 0 (@throw A error).
Proof. now apply sends_silent. Qed.

Lemma sends_lift {A} (o : outcome A) : sends_at_most 0 (lift o).
Proof. now apply sends_silent. Qed.

Lemma sends_deref {A} l name (field : WalrusConfig -> A) :
  sends_at_most 0 (deref l name field).
Proof.
  apply sends_silent. intros st. unfold deref. now destruct (heap st !! l).
Qed.

Lemma sends_get_prop v k : sends_at_most 0 (get_prop v k).
Proof.
  apply sends_silent. intros st. unfold get_prop. now destruct (Js.nullish v).
Qed.

Lemma sends_io {A} ev (answer : outcome A) :
  sends_at_most (if is_request ev then 1 else 0) (io ev answer).
Proof.
  intros st. exists [ev]. split; [reflexivity |].
  unfold requests. simpl. destruct (is_request ev) eqn:Hev.
  - rewrite filter_cons_True by exact Hev. simpl. lia.
  - rewrite filter_cons_False by congruence. simpl. lia.
Qed.

Lemma sends_alloc obj : sends_at_most 0 (alloc obj).
Proof.
  intros st. exists []. simpl. rewrite app_nil_r.
  split; [reflexivity | rewrite requests_nil; lia].
Qed.

Lemma sends_bind {A B} n n' (m : action A) (k : A -> action B) :
  sends_at_most n m -> (forall a, sends_at_most n' (k a)) ->
  sends_at_most (n + n') (bind m k).
Proof.
  intros Hm Hk st. unfold bind.
  destruct (Hm st) as (evs & Hlog & Hcount).
  destruct (m st) as [[error | a] st']; simpl in *.
  - exists evs. split; [exact Hlog | lia].
  - destruct (Hk a st') as (evs' & Hlog' & Hcount').
    exists (evs ++ evs')%list. rewrite Hlog', Hlog, app_assoc.
    split; [reflexivity |]. rewrite requests_app. lia.
Qed.

Lemma sends_try_catch {A} n n' (body : action A) handler :
  sends_at_most n body -> (forall error, sends_at_most n' (handler error)) ->
  sends_at_most (n + n') (try_catch body handler).
Proof.
  intros Hbody Hhandler st. unfold try_catch.
  destruct (Hbody st) as (evs & Hlog & Hcount).
  destruct (body st) as [[error | a] st']; simpl in *.
  - destruct (Hhandler error st') as (evs' & Hlog' & Hcount').
    exists (evs ++ evs')%list. rewrite Hlog', Hlog, app_assoc.
    split; [reflexivity |]. rewrite requests_app. lia.
  - exists evs. split; [exact Hlog | lia].
Qed.

Lemma sends_normalize_reply reply : sends_at_most 0 (normalize_reply reply).
Proof. apply sends_silent. intros st. apply normalize_reply_state. Qed.

Lemma sends_storeBlob_catch error : sends_at_most 0 (storeBlob_catch error).
Proof. apply sends_silent. intros st. apply storeBlob_catch_state. Qed.

Lemma sends_storeBlob env this the_data epochs :
  sends_at_most 1 (storeBlob env this the_data epochs).
Proof.
  unfold storeBlob.
  apply (sends_try_catch 1 0); [| apply sends_storeBlob_catch].
  apply (sends_bind 0 1).
  { unfold blob_data. destruct (is_file_path the_data).
    - apply (sends_io (EvReadFile the_data)).
    - apply sends_ret. }
  intros blobData. apply (sends_bind 0 1); [apply sends_deref |].
  intros base. cbv zeta. apply (sends_bind 1 0).
  - apply (sends_io (EvPut _ _ _)).
  - apply sends_normalize_reply.
Qed.

Lemma sends_read_catch {A} (prefix id : string) error :
  sends_at_most 0
    (match error with
     | AxiosError message response =>
         if decide (response_status response = Some 404%Z)
         then @throw A (JsError ("Blob not found: " +:+ id))
         else throw (JsError (prefix +:+ remote_or_transport message response))
     | _ => throw (JsError (prefix +:+ message_of error))
     end).
Proof.
  destruct error; try apply sends_throw.
  destruct (decide _); apply sends_throw.
Qed.

Lemma sends_getBlob env this id : sends_at_most 1 (getBlob env this id).
Proof.
  unfold getBlob.
  apply (sends_try_catch 1 0); [| intros error; apply sends_read_catch].
  apply (sends_bind 0 1); [apply sends_deref |].
  intros base. cbv zeta. apply (sends_bind 1 0).
  - apply (sends_io (EvGet _)).
  - intros bytes. apply sends_ret.
Qed.

Lemma sends_getBlobInfo env this id : sends_at_most 1 (getBlobInfo env this id).
Proof.
  unfold getBlobInfo.
  apply (sends_try_catch 1 0); [| intros error; apply sends_read_catch].
  apply (sends_bind 0 1); [apply sends_deref |].
  intros base. cbv zeta. apply (sends_bind 1 0).
  - apply (sends_io (EvHead _)).
  - intros headers. apply sends_ret.
Qed.

Lemma sends_blobExists env this id : sends_at_most 1 (blobExists env this id).
Proof.
  unfold blobExists.
  apply (sends_try_catch 1 0); [| intros error; apply sends_ret].
  apply (sends_bind 0 1); [apply sends_deref |].
  intros base. cbv zeta. apply (sends_bind 1 0).
  - apply (sends_io (EvHead _)).
  - intros headers. apply sends_ret.
Qed.

Lemma sends_listBlobs this limit : sends_at_most 0 (listBlobs this limit).
Proof.
  unfold listBlobs. apply (sends_bind 0 0).
  - apply (sends_io (EvWarn _)).
  - intros _. apply sends_ret.
Qed.

Lemma sends_getConfig this : sends_at_most 0 (getConfig this).
Proof.
  unfold getConfig. apply (sends_bind 0 0); [apply sends_deref |].
  intros copy. apply sends_alloc.
Qed.

(** X2. No operation is repeated: one call of a client method leaves the
    log as it was and appends to it, and among what it appends there is at
    most one request to a remote endpoint; [listBlobs], [deleteBlob],
    [getNetworkStatus] and [getConfig] send none.  So over any sequence of
    calls the number of requests is at most the number of calls. *)
Theorem one_request_per_call (env : Env) (this : WalrusClient) :
  (forall call st,
      exists evs,
        log (invoke env this st call) = (log st ++ evs)%list
        /\ requests evs <= 1
        /\ (match call with
            | ListBlobs _ | DeleteBlob _ | GetNetworkStatus | GetConfig => True
            | _ => False
            end -> requests evs = 0))
  /\ (forall calls st,
         exists evs,
           log (fold_left (invoke env this) calls st) = (log st ++ evs)%list
           /\ requests evs <= length calls).
Proof.
  assert (Hone : forall call st,
             exists evs,
               log (invoke env this st call) = (log st ++ evs)%list
               /\ requests evs <= 1
               /\ (match call with
                   | ListBlobs _ | DeleteBlob _ | GetNetworkStatus | GetConfig => True
                   | _ => False
                   end -> requests evs = 0)).
  { intros call st.
    assert (Hsilent : forall {A} (m : action A),
               sends_at_most 0 m ->
               exists evs, log (snd (m st)) = (log st ++ evs)%list
                           /\ requests evs <= 1 /\ (True -> requests evs = 0)).
    { intros A m Hm. destruct (Hm st) as (evs & Hlog & Hcount).
      exists evs. repeat split; [exact Hlog | lia | lia]. }
    assert (Hsends : forall {A} (m : action A),
               sends_at_most 1 m ->
               exists evs, log (snd (m st)) = (log st ++ evs)%list
                           /\ requests evs <= 1 /\ (False -> requests evs = 0)).
    { intros A m Hm. destruct (Hm st) as (evs & Hlog & Hcount).
      exists evs. repeat split; [exact Hlog | exact Hcount | contradiction]. }
    destruct call; unfold invoke.
    - apply Hsends, sends_storeBlob.
    - apply Hsends, sends_getBlob.
    - apply Hsends, sends_getBlobInfo.
    - apply Hsilent, sends_listBlobs.
    - apply Hsilent. unfold deleteBlob. apply sends_ret.
    - apply Hsilent. unfold getNetworkStatus.
      apply (sends_try_catch 0 0); [apply sends_ret | intros; apply sends_throw].
    - apply Hsilent, sends_getConfig.
    - apply Hsends, sends_blobExists. }
  split; [exact Hone |].
  induction calls as [| call rest IH]; intros st; simpl.
  - exists []. rewrite app_nil_r. split; [reflexivity | rewrite requests_nil; lia].
  - destruct (Hone call st) as (evs & Hlog & Hcount & _).
    destruct (IH (invoke env this st call)) as (evs' & Hlog' & Hcount').
    exists (evs ++ evs')%list. rewrite Hlog', Hlog, app_assoc.
    split; [reflexivity |]. rewrite requests_app. lia.
Qed.

(** ** [blobExists] *)

(** X3. [blobExists] never throws.  For a client whose configuration is in
    place it sends one header-only request and answers [true] exactly when
    that request succeeds, whatever the reason of a failure is: a 404 and a
    network error both give [false].  It answers [true] exactly when
    [getBlobInfo] on the same identifier returns a record. *)
Theorem blobExists_iff_probe_succeeds
    (env : Env) (this : WalrusClient) (st : state) (cfg : WalrusConfig)
    (id : string) :
  heap st !! config this = Some cfg ->
  let url := aggregatorUrl cfg +:+ "/v1/" +:+ id in
  blobExists env this id st
  = (Return (match http_head env url with
             | Return _ => true
             | Throw _ => false
             end),
     {| heap := heap st; log := (log st ++ [EvHead url])%list |})
  /\ (fst (blobExists env this id st) = Return true
      <-> exists info, fst (getBlobInfo env this id st) = Return info)
  /\ (forall st', exists answer, fst (blobExists env this id st') = Return answer).
Proof.
  intros Hcfg url.
  assert (Hrun : blobExists env this id st
                 = (Return (match http_head env url with
                            | Return _ => true
                            | Throw _ => false
                            end),
                    {| heap := heap st; log := (log st ++ [EvHead url])%list |})).
  { unfold blobExists, try_catch.
    erewrite bind_Return by (apply deref_allocated; exact Hcfg).
    cbv zeta. fold url. unfold bind, io, ret.
    now destruct (http_head env url). }
  split; [exact Hrun |]. split.
  - rewrite Hrun. simpl.
    unfold getBlobInfo, try_catch.
    erewrite bind_Return by (apply deref_allocated; exact Hcfg).
    cbv zeta. fold url. unfold bind, io, ret.
    destruct (http_head env url) as [error | headers]; simpl.
    + split; [discriminate |]. intros [info Hinfo].
      destruct error as [message response | message | v]; simpl in Hinfo;
        try discriminate.
      now destruct (decide _).
    + split; eauto.
  - intros st'. unfold blobExists, try_catch.
    destruct (bind _ _ st') as [[error | answer] st'']; simpl; eauto.
Qed.

(** A blob the read endpoint does not know does not exist; one it serves
    does. *)
Lemma blobExists_iff_probe_succeeds_witness :
  fst (blobExists demo_env_404 demo_client "blob-1" demo_state) = Return false
  /\ fst (blobExists (demo_env Js.VNull) demo_client "blob-1" demo_state)
     = Return true.
Proof.
  split.
  - destruct (blobExists_iff_probe_succeeds demo_env_404 demo_client demo_state
                demo_config "blob-1") as (Hrun & _); [reflexivity |].
    rewrite Hrun. reflexivity.
  - destruct (blobExists_iff_probe_succeeds (demo_env Js.VNull) demo_client
                demo_state demo_config "blob-1") as (Hrun & _); [reflexivity |].
    rewrite Hrun. reflexivity.
Defined.

(** ** Snapshots of the configuration *)

(** X4. Two calls of [getConfig] give two different objects, both different
    from the client's own and both holding its values; assigning to the
    first changes neither the second nor the client's configuration. *)
Theorem getConfig_snapshots_are_independent
    (this : WalrusClient) (st : state) (cfg : WalrusConfig) :
  heap st !! config this = Some cfg ->
  exists first st1 second st2,
    getConfig this st = (Return first, st1)
    /\ getConfig this st1 = (Return second, st2)
    /\ first <> second
    /\ first <> config this
    /\ second <> config this
    /\ heap st2 !! first = Some cfg
    /\ heap st2 !! second = Some cfg
    /\ forall changed : WalrusConfig,
         heap (assign first changed st2) !! first = Some changed
         /\ heap (assign first changed st2) !! second = Some cfg
         /\ heap (assign first changed st2) !! config this = Some cfg.
Proof.
  intros Hcfg.
  set (first := fresh (dom (heap st))).
  set (st1 := {| heap := <[first := cfg]> (heap st); log := log st |}).
  set (second := fresh (dom (heap st1))).
  set (st2 := {| heap := <[second := cfg]> (heap st1); log := log st1 |}).
  assert (Hnew1 : heap st !! first = None) by apply fresh_unallocated.
  assert (Hnew2 : heap st1 !! second = None) by apply fresh_unallocated.
  assert (H1 : first <> config this) by congruence.
  assert (Hcfg1 : heap st1 !! config this = Some cfg).
  { simpl. rewrite lookup_insert_ne by exact H1. exact Hcfg. }
  assert (H2 : second <> config this) by congruence.
  assert (H12 : first <> second).
  { intros Heq. rewrite <- Heq in Hnew2. simpl in Hnew2.
    rewrite lookup_insert_eq in Hnew2. discriminate. }
  exists first, st1, second, st2.
  split; [exact (getConfig_run this st cfg Hcfg) |].
  split; [exact (getConfig_run this st1 cfg Hcfg1) |].
  split; [exact H12 |]. split; [exact H1 |]. split; [exact H2 |].
  assert (Hfirst : heap st2 !! first = Some cfg).
  { simpl. rewrite lookup_insert_ne by congruence. apply lookup_insert_eq. }
  assert (Hsecond : heap st2 !! second = Some cfg) by apply lookup_insert_eq.
  split; [exact Hfirst |]. split; [exact Hsecond |].
  intros changed. unfold assign. cbn [heap].
  split; [apply lookup_insert_eq |].
  split.
  - rewrite lookup_insert_ne by exact H12. exact Hsecond.
  - rewrite lookup_insert_ne by exact H1.
    change (heap st2 !! config this = Some cfg).
    simpl. rewrite lookup_insert_ne by exact H2. exact Hcfg1.
Qed.

Lemma getConfig_snapshots_are_independent_witness :
  exists first st1 second st2,
    getConfig demo_client demo_state = (Return first, st1)
    /\ getConfig demo_client st1 = (Return second, st2)
    /\ first <> second
    /\ heap (assign first {| aggregatorUrl := "http://other.example";
                             publisherUrl := "http://other.example";
                             systemObject := "0x0";
                             wallet := None |} st2) !! second
       = Some demo_config.
Proof.
  destruct (getConfig_snapshots_are_independent demo_client demo_state
              demo_config)
    as (first & st1 & second & st2 & Hone & Htwo & Hne & _ & _ & _ & _ & Hafter);
    [reflexivity |].
  exists first, st1, second, st2.
  split; [exact Hone |]. split; [exact Htwo |]. split; [exact Hne |].
  now destruct (Hafter {| aggregatorUrl := "http://other.example";
                          publisherUrl := "http://other.example";
                          systemObject := "0x0";
                          wallet := None |}) as (_ & Hsecond & _).
Defined.

(** ** Storing what was fetched *)

Lemma prefix_empty (s : string) : String.prefix "" s = true.
Proof. now destruct s. Qed.

Lemma prefix_String (a b : ascii) (p s : string) :
  String.prefix (String a p) (String b s)
  = if ascii_dec a b then String.prefix p s else false.
Proof. reflexivity. Qed.

Lemma is_file_path_first (c : ascii) (s : string) :
  c <> "."%char -> is_file_path (String c s) = Ascii.eqb c "/".
Proof.
  intros Hdot. unfold is_file_path, Js.startsWith.
  rewrite !prefix_String, prefix_empty.
  destruct (ascii_dec "." c) as [Heq | _]; [now destruct Hdot |].
  destruct (ascii_dec "/" c) as [<- | Hne].
  - reflexivity.
  - symmetry. apply Ascii.eqb_neq. congruence.
Qed.

Lemma first_digit (b : byte) :
  Base64.digit (N.shiftr (Byte.to_N b) 2) <> "."%char
  /\ Ascii.eqb (Base64.digit (N.shiftr (Byte.to_N b) 2)) "/"
     = (252 <=? Byte.to_N b)%N.
Proof. destruct b; split; (discriminate || reflexivity). Qed.

Lemma encode_first (b : byte) (rest : list byte) :
  exists tail,
    Base64.encode (b :: rest)
    = String (Base64.digit (N.shiftr (Byte.to_N b) 2)) tail.
Proof. destruct rest as [| c [| d rest]]; simpl; eauto. Qed.

Lemma encoded_path_iff (bs : list byte) :
  is_file_path (Base64.encode bs) = true
  <-> exists b rest, bs = b :: rest /\ (252 <= Byte.to_N b)%N.
Proof.
  destruct bs as [| b rest].
  - split; [discriminate | intros (b & rest & [=] & _)].
  - destruct (encode_first b rest) as [tail ->].
    destruct (first_digit b) as [Hdot Hslash].
    rewrite (is_file_path_first _ _ Hdot), Hslash, N.leb_le.
    split; [eauto |]. now intros (b' & rest' & [= <- <-] & Hle).
Qed.

(** X5. The text [getBlob] returns is not always stored back as the bytes it
    stands for.  The base64 text of a buffer starts with [/] exactly when the
    first byte of the buffer is 252 or more, and [storeBlob] takes such a
    text for a file path: it reads the file of that name instead of decoding.
    For every other buffer (the empty one included) [storeBlob] of the text
    sends exactly the bytes of the buffer. *)
Theorem storeBlob_of_encoded_bytes
    (env : Env) (this : WalrusClient) (st : state) (cfg : WalrusConfig)
    (bs : list byte) (epochs : Js.number) :
  heap st !! config this = Some cfg ->
  let url := publisherUrl cfg +:+ "/v1/store" in
  let params := Js.number_to_string epochs in
  let text := Base64.encode bs in
  let events :=
    drop (length (log st)) (log (snd (storeBlob env this text epochs st))) in
  (is_file_path text = true
   <-> exists b rest, bs = b :: rest /\ (252 <= Byte.to_N b)%N)
  /\ ((forall b rest, bs = b :: rest -> (Byte.to_N b < 252)%N) ->
      events = [EvPut url bs params])
  /\ (forall b rest,
         bs = b :: rest -> (252 <= Byte.to_N b)%N ->
         events = EvReadFile text
                  :: match fs_readFile env text with
                     | Return bytes => [EvPut url bytes params]
                     | Throw _ => []
                     end).
Proof.
  intros Hcfg url params text events.
  split; [apply encoded_path_iff |]. split.
  - intros Hsmall.
    assert (Hpath : is_file_path text = false).
    { destruct (is_file_path text) eqn:Hp; [| reflexivity].
      apply encoded_path_iff in Hp. destruct Hp as (b & rest & Hbs & Hle).
      specialize (Hsmall b rest Hbs). lia. }
    subst events.
    rewrite (storeBlob_log_base64 env this st cfg text epochs Hcfg Hpath).
    rewrite drop_app_length. subst text.
    now rewrite Base64Facts.decode_encode.
  - intros b rest Hbs Hle.
    assert (Hpath : is_file_path text = true).
    { apply encoded_path_iff. eauto. }
    subst events.
    rewrite (storeBlob_log_file env this st cfg text epochs Hcfg Hpath).
    apply drop_app_length.
Qed.

(** The one byte 255 is fetched as the text [/w==]; storing that text looks
    for a file of that name and sends nothing. *)
Lemma storeBlob_of_encoded_bytes_witness :
  Base64.encode [xff]%byte = "/w=="
  /\ drop (length (log demo_state))
          (log (snd (storeBlob (demo_env newlyCreated_reply) demo_client
                               (Base64.encode [xff]%byte) (Js.Num 5)
                               demo_state)))
     = [EvReadFile "/w=="].
Proof.
  split; [reflexivity |].
  destruct (storeBlob_of_encoded_bytes (demo_env newlyCreated_reply)
              demo_client demo_state demo_config [xff]%byte (Js.Num 5))
    as (_ & _ & Hpath); [reflexivity |].
  rewrite (Hpath xff []%list eq_refl); [reflexivity |].
  vm_compute. discriminate.
Defined.

(** ** What a base64 payload decodes to *)

Lemma decode_from_significant (s : string) :
  forall phase hi,
    Base64.decode_from phase hi s = Base64.decode_from phase hi (significant s).
Proof.
  induction s as [| c rest IH]; intros phase hi; [reflexivity |].
  cbn [Base64.decode_from significant].
  destruct (Base64.unbase64 c) as [lo |] eqn:Hc.
  - cbn [Base64.decode_from]. rewrite Hc.
    destruct phase as [| [| [| phase]]]; now rewrite IH.
  - destruct (N_of_ascii c =? 61)%N; [reflexivity | apply IH].
Qed.

Lemma quarters p n :
  p <= 3 ->
  3 * (S n + p) / 4 - 3 * p / 4
  = (if Nat.eqb p 0 then 0 else 1)
    + (3 * (n + (if Nat.eqb p 3 then 0 else S p)) / 4
       - 3 * (if Nat.eqb p 3 then 0 else S p) / 4).
Proof.
  intros Hp.
  pose proof (Nat.div_mod_eq (3 * (S n + p)) 4).
  pose proof (Nat.mod_upper_bound (3 * (S n + p)) 4).
  destruct p as [| [| [| [| p]]]]; try lia; cbn [Nat.eqb] in *.
  - pose proof (Nat.div_mod_eq (3 * (n + 1)) 4).
    pose proof (Nat.mod_upper_bound (3 * (n + 1)) 4).
    change (3 * 1 / 4) with 0. change (3 * 0 / 4) with 0. lia.
  - pose proof (Nat.div_mod_eq (3 * (n + 2)) 4).
    pose proof (Nat.mod_upper_bound (3 * (n + 2)) 4).
    change (3 * 1 / 4) with 0. change (3 * 2 / 4) with 1. lia.
  - pose proof (Nat.div_mod_eq (3 * (n + 3)) 4).
    pose proof (Nat.mod_upper_bound (3 * (n + 3)) 4).
    change (3 * 3 / 4) with 2. change (3 * 2 / 4) with 1. lia.
  - pose proof (Nat.div_mod_eq (3 * (n + 0)) 4).
    pose proof (Nat.mod_upper_bound (3 * (n + 0)) 4).
    change (3 * 3 / 4) with 2. change (3 * 0 / 4) with 0. lia.
Qed.

Lemma decode_from_length (s : string) :
  forall phase hi,
    phase <= 3 ->
    length (Base64.decode_from phase hi (significant s))
    = 3 * (String.length (significant s) + phase) / 4 - 3 * phase / 4.
Proof.
  induction s as [| c rest IH]; intros phase hi Hphase.
  - cbn [significant Base64.decode_from String.length length].
    rewrite Nat.add_0_l. lia.
  - cbn [significant].
    destruct (Base64.unbase64 c) as [lo |] eqn:Hc.
    + cbn [Base64.decode_from String.length]. rewrite Hc.
      rewrite (quarters phase _ Hphase).
      destruct phase as [| [| [| [| phase]]]]; try lia;
        cbn [length Nat.eqb]; now rewrite IH by lia.
    + destruct (N_of_ascii c =? 61)%N; [| now apply IH].
      cbn [Base64.decode_from String.length length]. rewrite Nat.add_0_l. lia.
Qed.

(** X6. What [storeBlob] sends for a payload that is no file path depends
    only on the payload's characters of the base64 alphabet that come before
    the first [=]: white space, any other character and everything from the
    first [=] on make no difference.  With [n] such characters the body has
    [3n/4] bytes, rounded down; a payload with fewer than two of them is
    stored as the empty blob. *)
Theorem storeBlob_body_of_significant_characters
    (env : Env) (this : WalrusClient) (st : state) (cfg : WalrusConfig)
    (data : string) (epochs : Js.number) :
  heap st !! config this = Some cfg ->
  is_file_path data = false ->
  let url := publisherUrl cfg +:+ "/v1/store" in
  let params := Js.number_to_string epochs in
  exists body,
    drop (length (log st)) (log (snd (storeBlob env this data epochs st)))
    = [EvPut url body params]
    /\ body = Base64.decode (significant data)
    /\ length body = 3 * String.length (significant data) / 4
    /\ (String.length (significant data) < 2 -> body = []).
Proof.
  intros Hcfg Hpath url params.
  exists (Base64.decode data).
  assert (Hbody : Base64.decode data = Base64.decode (significant data))
    by apply decode_from_significant.
  assert (Hlength : length (Base64.decode data)
                    = 3 * String.length (significant data) / 4).
  { rewrite Hbody. unfold Base64.decode.
    rewrite decode_from_length by lia.
    rewrite Nat.add_0_r. change (3 * 0 / 4) with 0. lia. }
  split.
  { rewrite (storeBlob_log_base64 env this st cfg data epochs Hcfg Hpath).
    apply drop_app_length. }
  split; [exact Hbody |]. split; [exact Hlength |].
  intros Hshort.
  destruct (Base64.decode data) as [| b rest]; [reflexivity |].
  simpl in Hlength.
  destruct (String.length (significant data)) as [| [| n]]; try lia;
    discriminate Hlength.
Qed.

(** A payload broken over two lines and padded is stored as the five bytes
    of [Hello]; its significant characters are [SGVsbG8]. *)
Lemma storeBlob_body_of_significant_characters_witness :
  significant ("SGVs" +:+ Js.newline +:+ "bG8= trailing") = "SGVsbG8"
  /\ exists body,
       drop (length (log demo_state))
            (log (snd (storeBlob (demo_env newlyCreated_reply) demo_client
                                 ("SGVs" +:+ Js.newline +:+ "bG8= trailing")
                                 (Js.Num 5) demo_state)))
       = [EvPut "https://publisher-devnet.walrus.space/v1/store" body "5"]
       /\ body = list_byte_of_string "Hello"
       /\ length body = 5.
Proof.
  split; [reflexivity |].
  destruct (storeBlob_body_of_significant_characters
              (demo_env newlyCreated_reply) demo_client demo_state demo_config
              ("SGVs" +:+ Js.newline +:+ "bG8= trailing") (Js.Num 5))
    as (body & Hevents & Hbody & Hlength & _); [reflexivity | reflexivity |].
  exists body. split; [exact Hevents |]. split; [now rewrite Hbody |].
  now rewrite Hlength.
Defined.

(** ** The catalogue of tools and the validation of tool calls *)

Lemma accepted_blobId env args :
  accepted (blobId_object_parse env args)
  = match args with
    | Js.VObject props =>
        match Js.lookup_prop props "blobId" with
        | Js.VString _ => true
        | _ => false
        end
    | _ => false
    end.
Proof.
  destruct args; try reflexivity. simpl.
  now destruct (Js.lookup_prop props "blobId").
Qed.

Lemma accepted_store env args :
  accepted (StoreBlobSchema_parse env args)
  = match args with
    | Js.VObject props =>
        match Js.lookup_prop props "data", Js.lookup_prop props "epochs" with
        | Js.VString _, Js.VUndefined => true
        | Js.VString _, Js.VNumber (Js.Num _) => true
        | Js.VString _, Js.VNumber (Js.Infinity _) => true
        | _, _ => false
        end
    | _ => false
    end.
Proof.
  destruct args; try reflexivity. simpl.
  destruct (Js.lookup_prop props "data"); simpl;
    destruct (Js.lookup_prop props "epochs") as [| | | [| |] | | |]; reflexivity.
Qed.

Lemma accepted_list env args :
  accepted (ListBlobsSchema_parse env args)
  = match args with
    | Js.VObject props =>
        match Js.lookup_prop props "limit" with
        | Js.VUndefined | Js.VNumber (Js.Num _) => true
        | Js.VNumber (Js.Infinity _) => true
        | _ => false
        end
    | _ => false
    end.
Proof.
  destruct args; try reflexivity. simpl.
  destruct (Js.lookup_prop props "limit") as [| | | [| |] | | |]; reflexivity.
Qed.

Lemma rejected_store env args :
  accepted (StoreBlobSchema_parse env args) = false ->
  exists issues, StoreBlobSchema_parse env args = Throw (ZodError env issues).
Proof.
  unfold StoreBlobSchema_parse. destruct args; eauto.
  destruct (z_string _ _); destruct (z_number_optional _ _); simpl;
    eauto; discriminate.
Qed.

Lemma rejected_blobId env args :
  accepted (blobId_object_parse env args) = false ->
  exists issues, blobId_object_parse env args = Throw (ZodError env issues).
Proof.
  unfold blobId_object_parse. destruct args; eauto.
  destruct (z_string _ _); simpl; eauto; discriminate.
Qed.

Lemma rejected_list env args :
  accepted (ListBlobsSchema_parse env args) = false ->
  exists issues, ListBlobsSchema_parse env args = Throw (ZodError env issues).
Proof.
  unfold ListBlobsSchema_parse. destruct args; eauto.
  destruct (z_number_optional _ _); simpl; eauto; discriminate.
Qed.

Lemma call_tool_rejects env walrusClient tool_name args st :
  In tool_name (map Catalog.name list_tools) ->
  validates env tool_name args = false ->
  exists issues,
    call_tool env walrusClient tool_name args st
    = (Return (error_result (ZodError env issues)), st).
Proof.
  intros Hin Hno. simpl in Hin.
  unfold call_tool. rewrite try_catch_recovers.
  destruct Hin as [<- | [<- | [<- | [<- | [<- | []]]]]];
    unfold validates in Hno;
    cbn [String.eqb Ascii.eqb Bool.eqb] in *;
    unfold GetBlobSchema_parse, DeleteBlobSchema_parse,
      GetBlobInfoSchema_parse in *;
    first [ destruct (rejected_store env args Hno) as [issues Hparse]
          | destruct (rejected_blobId env args Hno) as [issues Hparse]
          | destruct (rejected_list env args Hno) as [issues Hparse] ];
    exists issues; unfold bind at 1, lift; now rewrite Hparse.
Qed.

(** X7. The catalogue and the validation agree.  For every tool the
    catalogue lists, the schema the handler applies to a call of that name
    accepts an arguments value exactly when the value satisfies the
    [inputSchema] the catalogue advertises for the tool: an object with every
    required property, whose declared properties have the declared types.
    A call that does not satisfy the advertised schema is answered with the
    envelope of the validation error and has no effect.  The handler knows
    no tool the catalogue does not list. *)
Theorem catalogue_agrees_with_validation (env : Env) (args : Js.value) :
  (forall t,
      In t list_tools ->
      validates env (Catalog.name t) args
      = satisfies (Catalog.inputSchema t) args)
  /\ (forall t walrusClient st,
         In t list_tools ->
         satisfies (Catalog.inputSchema t) args = false ->
         exists issues,
           call_tool env walrusClient (Catalog.name t) args st
           = (Return (error_result (ZodError env issues)), st))
  /\ (forall tool_name,
         ~ In tool_name (map Catalog.name list_tools) ->
         forall walrusClient st,
           call_tool env walrusClient tool_name args st
           = (Return (error_result (JsError ("Unknown tool: " +:+ tool_name))),
              st)).
Proof.
  assert (Hagree : forall t,
             In t list_tools ->
             validates env (Catalog.name t) args
             = satisfies (Catalog.inputSchema t) args).
  2:{ split; [exact Hagree |]. split.
      - intros t walrusClient st Hin Hno.
        apply call_tool_rejects; [now apply in_map |].
        now rewrite Hagree.
      - intros tool_name Hout walrusClient st. simpl in Hout.
        unfold call_tool. rewrite try_catch_recovers.
        destruct (String.eqb_spec tool_name "store_blob");
          [subst; exfalso; apply Hout; auto 10 |].
        destruct (String.eqb_spec tool_name "get_blob");
          [subst; exfalso; apply Hout; auto 10 |].
        destruct (String.eqb_spec tool_name "list_blobs");
          [subst; exfalso; apply Hout; auto 10 |].
        destruct (String.eqb_spec tool_name "delete_blob");
          [subst; exfalso; apply Hout; auto 10 |].
        destruct (String.eqb_spec tool_name "get_blob_info");
          [subst; exfalso; apply Hout; auto 10 |].
        reflexivity. }
  - intros t Hin. simpl in Hin.
    destruct Hin as [<- | [<- | [<- | [<- | [<- | []]]]]];
      unfold validates; cbn [Catalog.name String.eqb Ascii.eqb Bool.eqb];
      unfold GetBlobSchema_parse, DeleteBlobSchema_parse,
        GetBlobInfoSchema_parse;
      rewrite ?accepted_store, ?accepted_blobId, ?accepted_list;
      destruct args; try reflexivity; unfold satisfies;
      cbn [Catalog.inputSchema Catalog.required Catalog.properties forallb
             fst snd Catalog.type].
    + destruct (Js.lookup_prop props "data");
        destruct (Js.lookup_prop props "epochs") as [| | | [| |] | | |];
        reflexivity.
    + now destruct (Js.lookup_prop props "blobId").
    + destruct (Js.lookup_prop props "limit") as [| | | [| |] | | |];
        reflexivity.
    + now destruct (Js.lookup_prop props "blobId").
    + now destruct (Js.lookup_prop props "blobId").
Qed.

(** ** The [store_blob] and [list_blobs] tools *)

Lemma call_tool_store_blob env walrusClient props the_data the_epochs st :
  StoreBlobSchema_parse env (Js.VObject props) = Return (the_data, the_epochs) ->
  call_tool env walrusClient "store_blob" (Js.VObject props) st
  = answer (fun info => Js.JSON_stringify (BlobInfo_to_value info))
           (storeBlob env walrusClient the_data
                      (default (Js.Num 5) the_epochs) st).
Proof.
  intros Hparse. unfold call_tool. rewrite try_catch_recovers.
  cbn [String.eqb Ascii.eqb Bool.eqb].
  unfold bind at 1, lift. rewrite Hparse. unfold bind, ret, answer.
  now destruct (storeBlob _ _ _ _ st) as [[error | info] st'].
Qed.

(** X8. A call of the [store_blob] tool with a string [data] and no
    [epochs] is the client's [storeBlob] with 5 epochs, the default the
    catalogue advertises, and with [epochs] given it is [storeBlob] with that
    number; what [storeBlob] returns is answered as JSON text, what it throws
    as an error envelope.  So for a base64 payload and a client whose
    configuration is in place, a call without [epochs] sends the decoded bytes
    with the query parameter [epochs=5]. *)
Theorem store_blob_tool_applies_default_epochs
    (env : Env) (walrusClient : WalrusClient) (st : state) (cfg : WalrusConfig)
    (props : list (string * Js.value)) (the_data : string) :
  heap st !! config walrusClient = Some cfg ->
  Js.lookup_prop props "data" = Js.VString the_data ->
  let call := call_tool env walrusClient "store_blob" (Js.VObject props) st in
  let show := fun info => Js.JSON_stringify (BlobInfo_to_value info) in
  advertised_default "store_blob" "epochs" = Some (Js.Num 5)
  /\ (Js.lookup_prop props "epochs" = Js.VUndefined ->
      call = answer show (storeBlob env walrusClient the_data (Js.Num 5) st))
  /\ (forall n,
         Js.lookup_prop props "epochs" = Js.VNumber (Js.Num n) ->
         call = answer show (storeBlob env walrusClient the_data (Js.Num n) st))
  /\ (Js.lookup_prop props "epochs" = Js.VUndefined ->
      is_file_path the_data = false ->
      log (snd call)
      = (log st ++ [EvPut (publisherUrl cfg +:+ "/v1/store")
                          (Base64.decode the_data) "5"])%list).
Proof.
  intros Hcfg Hdata call show. subst call show.
  assert (Habsent : Js.lookup_prop props "epochs" = Js.VUndefined ->
            call_tool env walrusClient "store_blob" (Js.VObject props) st
            = answer (fun info => Js.JSON_stringify (BlobInfo_to_value info))
                     (storeBlob env walrusClient the_data (Js.Num 5) st)).
  { intros Hepochs.
    apply (call_tool_store_blob env walrusClient props the_data None).
    unfold StoreBlobSchema_parse. now rewrite Hdata, Hepochs. }
  split; [reflexivity |]. split; [exact Habsent |]. split.
  - intros n Hepochs.
    apply (call_tool_store_blob env walrusClient props the_data
                                (Some (Js.Num n))).
    unfold StoreBlobSchema_parse. now rewrite Hdata, Hepochs.
  - intros Hepochs Hpath. rewrite (Habsent Hepochs).
    pose proof (storeBlob_log_base64 env walrusClient st cfg the_data
                  (Js.Num 5) Hcfg Hpath) as Hlog.
    unfold answer.
    destruct (storeBlob env walrusClient the_data (Js.Num 5) st)
      as [[error | info] st']; exact Hlog.
Qed.

(** [store_blob] with [{data: "SGVsbG8="}]: the bytes of [Hello] go out with
    [epochs=5]. *)
Lemma store_blob_tool_applies_default_epochs_witness :
  log (snd (call_tool (demo_env newlyCreated_reply) demo_client "store_blob"
                      (Js.VObject [("data", Js.VString "SGVsbG8=")])
                      demo_state))
  = [EvPut "https://publisher-devnet.walrus.space/v1/store"
           (list_byte_of_string "Hello") "5"].
Proof.
  destruct (store_blob_tool_applies_default_epochs
              (demo_env newlyCreated_reply) demo_client demo_state demo_config
              [("data", Js.VString "SGVsbG8=")] "SGVsbG8=")
    as (_ & _ & _ & Hlog); [reflexivity | reflexivity |].
  rewrite Hlog by reflexivity. reflexivity.
Defined.



(** ** The shape of an envelope *)

Lemma digit_is_base64_char (n : N) : base64_char (Base64.digit n) = true.
Proof.
  unfold Base64.digit. generalize (N.to_nat n). intros k.
  do 64 (destruct k as [| k]; [reflexivity |]). reflexivity.
Qed.

Lemma encode_chars_upto (n : nat) :
  forall bs : list byte,
    length bs <= n -> all_chars base64_char (Base64.encode bs) = true.
Proof.
  induction n as [n IH] using lt_wf_ind. intros bs Hlen.
  destruct bs as [| a [| b [| c rest]]]; cbn [Base64.encode all_chars];
    rewrite ?digit_is_base64_char; try reflexivity.
  apply (IH (length rest)); simpl in *; lia.
Qed.

Lemma not_an_error_text (s : string) :
  all_chars base64_char s = true -> String.prefix "Error: " s = false.
Proof.
  intros Hchars. destruct (String.prefix "Error: " s) eqn:Hprefix; [| reflexivity].
  apply (startsWith_spec s "Error: ") in Hprefix. destruct Hprefix as [rest ->].
  discriminate Hchars.
Qed.

Lemma JSON_object_text props :
  String.prefix "Error: " (Js.JSON_stringify (Js.VObject props)) = false.
Proof.
  unfold Js.JSON_stringify. cbn [Js.serialize default].
  match goal with
  | |- context [match ?parts with [] => _ | _ :: _ => _ end] => destruct parts
  end; reflexivity.
Qed.

Lemma JSON_array_text items :
  String.prefix "Error: " (Js.JSON_stringify (Js.VArray items)) = false.
Proof.
  unfold Js.JSON_stringify. cbn [Js.serialize default].
  match goal with
  | |- context [match ?parts with [] => _ | _ :: _ => _ end] => destruct parts
  end; reflexivity.
Qed.

Lemma getBlob_returns_base64_text env this id st text :
  fst (getBlob env this id st) = Return text ->
  exists bytes, text = Base64.encode bytes.
Proof.
  unfold getBlob, try_catch, bind, deref, io, ret, throw.
  destruct (heap st !! config this); simpl.
  - destruct (delivered (http_get env _)) as [error | bytes]; simpl.
    + destruct error; simpl; try discriminate.
      destruct (decide _); discriminate.
    + intros [= <-]. eauto.
  - discriminate.
Qed.

Lemma answer_shape {A} (show : A -> string) (r : outcome A * state) :
  (forall a, fst r = Return a -> String.prefix "Error: " (show a) = false) ->
  exists e st' text,
    answer show r = (Return e, st')
    /\ content e = [{| type := "text"; text := text |}]
    /\ (isError e = Some true \/ isError e = None)
    /\ (isError e = Some true <-> String.prefix "Error: " text = true).
Proof.
  intros Hshow. destruct r as [[error | a] st']; simpl.
  - exists (error_result error), st', ("Error: " +:+ message_of error).
    assert (Hprefix : String.prefix "Error: " ("Error: " +:+ message_of error)
                      = true)
      by (apply (startsWith_spec _ "Error: "); now eexists).
    split; [reflexivity |]. split; [reflexivity |].
    split; [now left |]. split; [intros _; exact Hprefix | reflexivity].
  - exists (text_result (show a)), st', (show a).
    specialize (Hshow a eq_refl).
    split; [reflexivity |]. split; [reflexivity |].
    split; [now right |]. simpl. rewrite Hshow. split; discriminate.
Qed.

Lemma call_tool_as_answer env walrusClient tool_name args st :
  exists (A : Type) (show : A -> string) (r : outcome A * state),
    call_tool env walrusClient tool_name args st = answer show r
    /\ forall a, fst r = Return a -> String.prefix "Error: " (show a) = false.
Proof.
  unfold call_tool. rewrite try_catch_recovers.
  destruct (tool_name =? "store_blob").
  { exists BlobInfo, (fun info => Js.JSON_stringify (BlobInfo_to_value info)).
    unfold bind at 1, lift.
    destruct (StoreBlobSchema_parse env args) as [error | [the_data the_epochs]].
    - exists (Throw error, st). split; [reflexivity | discriminate].
    - exists (storeBlob env walrusClient the_data (default (Js.Num 5) the_epochs) st).
      split; [| intros; apply JSON_object_text].
      unfold bind, ret, answer. now destruct (storeBlob _ _ _ _ st) as [[? | ?] ?]. }
  destruct (tool_name =? "get_blob").
  { exists string, (fun text => text).
    unfold bind at 1, lift.
    destruct (GetBlobSchema_parse env args) as [error | id].
    - exists (Throw error, st). split; [reflexivity | discriminate].
    - exists (getBlob env walrusClient id st). split.
      + unfold bind, ret, answer. now destruct (getBlob _ _ _ st) as [[? | ?] ?].
      + intros text Htext.
        destruct (getBlob_returns_base64_text _ _ _ _ _ Htext) as [bytes ->].
        apply not_an_error_text, (encode_chars_upto (length bytes)). lia. }
  destruct (tool_name =? "list_blobs").
  { exists (list string),
      (fun result => Js.JSON_stringify (Js.VArray (map Js.VString result))).
    unfold bind at 1, lift.
    destruct (ListBlobsSchema_parse env args) as [error | limit].
    - exists (Throw error, st). split; [reflexivity | discriminate].
    - exists (listBlobs walrusClient (default (Js.Num 10) limit) st).
      split; [reflexivity | intros; apply JSON_array_text]. }
  destruct (tool_name =? "delete_blob").
  { exists DeleteResult,
      (fun result => Js.JSON_stringify (DeleteResult_to_value result)).
    unfold bind at 1, lift.
    destruct (DeleteBlobSchema_parse env args) as [error | id].
    - exists (Throw error, st). split; [reflexivity | discriminate].
    - exists (deleteBlob walrusClient id st).
      split; [reflexivity | intros; apply JSON_object_text]. }
  destruct (tool_name =? "get_blob_info").
  { exists BlobInfo, (fun info => Js.JSON_stringify (BlobInfo_to_value info)).
    unfold bind at 1, lift.
    destruct (GetBlobInfoSchema_parse env args) as [error | id].
    - exists (Throw error, st). split; [reflexivity | discriminate].
    - exists (getBlobInfo env walrusClient id st).
      split; [| intros; apply JSON_object_text].
      unfold bind, ret, answer. now destruct (getBlobInfo _ _ _ st) as [[? | ?] ?]. }
  exists unit, (fun _ => "").
  exists (Throw (JsError ("Unknown tool: " +:+ tool_name)), st).
  split; [reflexivity | discriminate].
Qed.

(** X10. Every answer of the handler of tool calls is an envelope with
    exactly one content item, of type [text].  Its [isError] is either absent
    or [true], and it is [true] exactly when the text starts with [Error: ]:
    no result of a tool (JSON text, or the base64 text of a fetched blob) can
    be taken for an error, and no error for a result. *)
Theorem call_tool_envelope_shape
    (env : Env) (walrusClient : WalrusClient) (tool_name : string)
    (args : Js.value) (st : state) :
  exists e st' the_text,
    call_tool env walrusClient tool_name args st = (Return e, st')
    /\ content e = [{| type := "text"; text := the_text |}]
    /\ (isError e = Some true \/ isError e = None)
    /\ (isError e = Some true <-> String.prefix "Error: " the_text = true).
Proof.
  destruct (call_tool_as_answer env walrusClient tool_name args st)
    as (A & show & r & -> & Hshow).
  now apply answer_shape.
Qed.

(** ** The catalogue of resources *)

Lemma read_resource_status walrusClient st :
  read_resource walrusClient "walrus://status" st
  = (Return [{| uri := "walrus://status";
                mimeType := "application/json";
                resource_text :=
                  Js.JSON_stringify
                    (NetworkStatus_to_value
                       {| epoch := 1;
                          networkSize := 100;
                          totalStored := 1000000;
                          availableStorage := 10000000 |}) |}],
     st).
Proof. reflexivity. Qed.

Lemma read_resource_config walrusClient st cfg :
  heap st !! config walrusClient = Some cfg ->
  fst (read_resource walrusClient "walrus://config" st)
  = Return [{| uri := "walrus://config";
               mimeType := "application/json";
               resource_text := Js.JSON_stringify (WalrusConfig_to_value cfg) |}].
Proof.
  intros Hcfg. unfold read_resource, try_catch. simpl.
  erewrite bind_Return by exact (getConfig_run walrusClient st cfg Hcfg).
  erewrite bind_Return
    by (apply deref_allocated; simpl; apply lookup_insert_eq).
  reflexivity.
Qed.

(** X11. For a client whose configuration is in place, reading a resource
    succeeds exactly for the URIs the catalogue of resources lists.  The
    answer then has one content item, which repeats the URI and has the MIME
    type the catalogue gives for it; its text is the JSON of the fixed
    network status for [walrus://status], in every state, and the JSON of the
    client's configuration for [walrus://config]. *)
Theorem read_resource_serves_the_catalogue
    (walrusClient : WalrusClient) (st : state) (cfg : WalrusConfig)
    (the_uri : string) :
  heap st !! config walrusClient = Some cfg ->
  let result := fst (read_resource walrusClient the_uri st) in
  ((exists contents, result = Return contents)
   <-> In the_uri (map Catalog.uri list_resources))
  /\ (forall r,
         In r list_resources -> Catalog.uri r = the_uri ->
         exists the_text,
           result = Return [{| uri := the_uri;
                               mimeType := Catalog.mimeType r;
                               resource_text := the_text |}])
  /\ (the_uri = "walrus://status" ->
      read_resource walrusClient the_uri st
      = (Return [{| uri := the_uri;
                    mimeType := "application/json";
                    resource_text :=
                      Js.JSON_stringify
                        (NetworkStatus_to_value
                           {| epoch := 1;
                              networkSize := 100;
                              totalStored := 1000000;
                              availableStorage := 10000000 |}) |}],
         st))
  /\ (the_uri = "walrus://config" ->
      result = Return [{| uri := the_uri;
                          mimeType := "application/json";
                          resource_text :=
                            Js.JSON_stringify (WalrusConfig_to_value cfg) |}]).
Proof.
  intros Hcfg result. subst result.
  assert (Hstatus := read_resource_status walrusClient st).
  assert (Hconfig := read_resource_config walrusClient st cfg Hcfg).
  split; [| split; [| split]].
  - split.
    + intros [contents Hcontents]. simpl.
      destruct (String.eqb_spec the_uri "walrus://status"); [auto |].
      destruct (String.eqb_spec the_uri "walrus://config"); [auto |].
      exfalso. revert Hcontents. unfold read_resource, try_catch.
      apply String.eqb_neq in n, n0. now rewrite n, n0.
    + simpl. intros [<- | [<- | []]]; eauto.
  - intros r Hin <-. simpl in Hin.
    destruct Hin as [<- | [<- | []]]; cbn [Catalog.uri Catalog.mimeType].
    + rewrite Hstatus. eauto.
    + rewrite Hconfig. eauto.
  - now intros ->.
  - now intros ->.
Qed.

Lemma read_resource_serves_the_catalogue_witness :
  fst (read_resource demo_client "walrus://config" demo_state)
  = Return [{| uri := "walrus://config";
               mimeType := "application/json";
               resource_text :=
                 Js.JSON_stringify (WalrusConfig_to_value demo_config) |}].
Proof.
  destruct (read_resource_serves_the_catalogue demo_client demo_state
              demo_config "walrus://config") as (_ & _ & _ & Hconfig);
    [reflexivity |].
  now apply Hconfig.
Defined.

(** ** [getBlobHash] *)

Lemma lower_hex_digit (x : N) :
  is_lower_hex (Js.hex_digit (N.land x 15)) = true.
Proof.
  change 15%N with (N.ones 4). rewrite N.land_ones.
  assert (Hlt : (x mod 2 ^ 4 < 16)%N) by (apply N.mod_lt; discriminate).
  generalize dependent (x mod 2 ^ 4)%N. intros m Hlt.
  assert (Hin : In m (map N.of_nat (seq 0 16))).
  { rewrite <- (Nnat.N2Nat.id m). apply in_map, in_seq. lia. }
  simpl in Hin.
  repeat (destruct Hin as [<- | Hin]; [reflexivity |]). destruct Hin.
Qed.

Lemma hex_shape (s : Sha256.hash) :
  String.length (Sha256.hex s) = 64
  /\ all_chars is_lower_hex (Sha256.hex s) = true.
Proof.
  split; [reflexivity |].
  unfold Sha256.hex, Sha256.hex8. cbn [all_chars].
  rewrite !lower_hex_digit. reflexivity.
Qed.

(** X12. [getBlobHash] gives, for every string, the SHA-256 digest of the
    bytes the string decodes to as base64, written as 64 lowercase
    hexadecimal characters.  So the hash of the base64 text of a buffer is
    the digest of the buffer; characters outside the alphabet and whatever
    follows the first [=] do not change the hash; and for a payload that is
    no file path the hash is the digest of exactly the bytes [storeBlob]
    sends. *)
Theorem getBlobHash_is_digest_of_decoded_payload
    (this : WalrusClient) (data : string) :
  String.length (getBlobHash this data) = 64
  /\ all_chars is_lower_hex (getBlobHash this data) = true
  /\ (forall bs,
         getBlobHash this (Base64.encode bs) = Sha256.hex (Sha256.digest bs))
  /\ getBlobHash this data = getBlobHash this (significant data)
  /\ (forall env st cfg epochs,
         heap st !! config this = Some cfg ->
         is_file_path data = false ->
         exists body,
           drop (length (log st))
                (log (snd (storeBlob env this data epochs st)))
           = [EvPut (publisherUrl cfg +:+ "/v1/store") body
                    (Js.number_to_string epochs)]
           /\ getBlobHash this data = Sha256.hex (Sha256.digest body)).
Proof.
  unfold getBlobHash.
  split; [apply hex_shape |]. split; [apply hex_shape |]. split.
  { intros bs. now rewrite Base64Facts.decode_encode. }
  split.
  { unfold Base64.decode. now rewrite <- decode_from_significant. }
  intros env st cfg epochs Hcfg Hpath. exists (Base64.decode data).
  split; [| reflexivity].
  rewrite (storeBlob_log_base64 env this st cfg data epochs Hcfg Hpath).
  apply drop_app_length.
Qed.

(** The hash of [SGVsbG8=] is the digest of [Hello]. *)
Lemma getBlobHash_is_digest_of_decoded_payload_witness :
  getBlobHash demo_client "SGVsbG8="
  = "185f8db32271fe25f561a6fc938b2e264306ec304eda518007d1764826381969".
Proof.
  destruct (getBlobHash_is_digest_of_decoded_payload demo_client "SGVsbG8=")
    as (_ & _ & Hencoded & _).
  change "SGVsbG8=" with (Base64.encode (list_byte_of_string "Hello")).
  rewrite Hencoded. vm_compute. reflexivity.
Defined.

(** The constants computed from the primes are the published ones: there
    are sixty-four, from [428a2f98] to [c67178f2], and the initial hash value
    starts with [6a09e667] and ends with [5be0cd19]. *)
Example sha256_constants :
  length Sha256.K = 64
  /\ hd 0%N Sha256.K = 0x428a2f98%N
  /\ List.last Sha256.K 0%N = 0xc67178f2%N
  /\ Sha256.h0 Sha256.initial = 0x6a09e667%N
  /\ Sha256.h7 Sha256.initial = 0x5be0cd19%N.
Proof. repeat split; vm_compute; reflexivity. Qed.

(** The digests of the empty message, of [abc] and of a message of two
    blocks are the published ones. *)
Example sha256_published_digests :
  Sha256.hex (Sha256.digest [])
  = "e3b0c44298fc1c149afbf4c8996fb92427ae41e4649b934ca495991b7852b855"
  /\ Sha256.hex (Sha256.digest (list_byte_of_string "abc"))
     = "ba7816bf8f01cfea414140de5dae2223b00361a396177a9cb410ff61f20015ad"
  /\ Sha256.hex
       (Sha256.digest
          (list_byte_of_string
             "abcdbcdecdefdefgefghfghighijhijkijkljklmklmnlmnomnopnopq"))
     = "248d6a61d20638b8e5c026930c3e6039a33ce45964ff2167f6ecedd419db06c1".
Proof. repeat split; vm_compute; reflexivity. Qed.

(** ** The [delete_blob] tool *)

(** X13. A call of the [delete_blob] tool changes nothing, whatever its
    arguments are: no request, no log entry, no object.  With a string
    [blobId] it is answered with the JSON text of the fixed refusal
    ([success] false), and that answer is not marked as an error: [isError]
    is absent. *)
Theorem delete_blob_tool_refuses_without_error
    (env : Env) (walrusClient : WalrusClient) (args : Js.value) (st : state) :
  snd (call_tool env walrusClient "delete_blob" args st) = st
  /\ (forall id,
         Js.prop args "blobId" = Js.VString id ->
         fst (call_tool env walrusClient "delete_blob" args st)
         = Return {| content :=
                       [{| type := "text";
                           text :=
                             Js.JSON_stringify
                               (Js.VObject
                                  [("success", Js.VBool false);
                                   ("message", Js.VString delete_message)]) |}];
                     isError := None |}).
Proof.
  unfold call_tool. rewrite try_catch_recovers.
  cbn [String.eqb Ascii.eqb Bool.eqb]. unfold bind at 1, lift.
  split.
  - now destruct (DeleteBlobSchema_parse env args).
  - intros id Hid. destruct args; try discriminate. simpl in Hid.
    unfold DeleteBlobSchema_parse, blobId_object_parse. now rewrite Hid.
Qed.

(** ** The heap *)

Lemma keeps_silent {A} (m : action A) :
  (forall st, snd (m st) = st) -> keeps_heap m.
Proof. intros Hm st. now rewrite Hm. Qed.

Lemma keeps_bind {A B} (m : action A) (k : A -> action B) :
  keeps_heap m -> (forall a, keeps_heap (k a)) -> keeps_heap (bind m k).
Proof.
  intros Hm Hk st. unfold bind. specialize (Hm st).
  destruct (m st) as [[error | a] st']; simpl in *; [exact Hm |].
  now rewrite Hk.
Qed.

Lemma keeps_try_catch {A} (body : action A) handler :
  keeps_heap body -> (forall error, keeps_heap (handler error)) ->
  keeps_heap (try_catch body handler).
Proof.
  intros Hbody Hhandler st. unfold try_catch. specialize (Hbody st).
  destruct (body st) as [[error | a] st']; simpl in *; [| exact Hbody].
  now rewrite Hhandler.
Qed.

Lemma keeps_io {A} ev (answer : outcome A) : keeps_heap (io ev answer).
Proof. intros st. reflexivity. Qed.

Lemma keeps_deref {A} l name (field : WalrusConfig -> A) :
  keeps_heap (deref l name field).
Proof. intros st. unfold deref. now destruct (heap st !! l). Qed.

Lemma keeps_get_prop v k : keeps_heap (get_prop v k).
Proof. intros st. unfold get_prop. now destruct (Js.nullish v). Qed.

Ltac keeps_step :=
  first
    [ apply keeps_io | apply keeps_deref | apply keeps_get_prop
    | apply keeps_bind; [| intros ?]
    | apply keeps_try_catch; [| intros ?]
    | apply keeps_silent; intros ?;
      first [ reflexivity | apply normalize_reply_state
            | apply storeBlob_catch_state ]
    | match goal with
      | |- keeps_heap (if ?b then _ else _) => destruct b
      | |- keeps_heap (match ?e with _ => _ end) => destruct e
      end ].

(** X14. The client keeps no state of its own beyond its configuration.
    Every method but [getConfig] leaves the heap of objects exactly as it
    was, whatever the outside world answers; [getConfig], for a client whose
    configuration is in place, adds one object, the copy, and changes no
    other. *)
Theorem client_methods_keep_the_heap
    (env : Env) (this : WalrusClient) (st : state) :
  (forall call,
      call <> GetConfig -> heap (invoke env this st call) = heap st)
  /\ (forall cfg,
         heap st !! config this = Some cfg ->
         exists snapshot,
           heap st !! snapshot = None
           /\ heap (invoke env this st GetConfig)
              = <[snapshot := cfg]> (heap st)).
Proof.
  split.
  - intros call Hcall. destruct call; try contradiction; unfold invoke;
      match goal with
      | |- heap (snd (?m st)) = heap st => revert st; change (keeps_heap m)
      end.
    + unfold storeBlob, blob_data. repeat keeps_step.
    + unfold getBlob. repeat keeps_step.
    + unfold getBlobInfo. repeat keeps_step.
    + unfold listBlobs. repeat keeps_step.
    + unfold deleteBlob. repeat keeps_step.
    + unfold getNetworkStatus. repeat keeps_step.
    + unfold blobExists. repeat keeps_step.
  - intros cfg Hcfg. exists (fresh (dom (heap st))).
    split; [apply fresh_unallocated |].
    unfold invoke. now rewrite (getConfig_run this st cfg Hcfg).
Qed.

(** ** URL-safe base64 *)

Lemma unbase64_url_safe (c : ascii) :
  Base64.unbase64 (url_safe_char c) = Base64.unbase64 c
  /\ (N_of_ascii (url_safe_char c) =? 61)%N = (N_of_ascii c =? 61)%N
  /\ url_safe_char c <> "/"%char
  /\ (c <> "."%char -> url_safe_char c <> "."%char).
Proof.
  unfold url_safe_char.
  destruct (N_of_ascii c =? 43)%N eqn:Hplus.
  - apply N.eqb_eq in Hplus.
    assert (c = "+"%char) as -> by (rewrite <- (ascii_N_embedding c), Hplus; reflexivity).
    repeat split; discriminate.
  - destruct (N_of_ascii c =? 47)%N eqn:Hslash.
    + apply N.eqb_eq in Hslash.
      assert (c = "/"%char) as ->
        by (rewrite <- (ascii_N_embedding c), Hslash; reflexivity).
      repeat split; discriminate.
    + repeat split; auto.
      intros ->. discriminate Hslash.
Qed.

Lemma decode_from_url_safe (s : string) :
  forall phase hi,
    Base64.decode_from phase hi (url_safe s) = Base64.decode_from phase hi s.
Proof.
  induction s as [| c rest IH]; intros phase hi; [reflexivity |].
  cbn [url_safe Base64.decode_from].
  destruct (unbase64_url_safe c) as (-> & -> & _).
  destruct (Base64.unbase64 c).
  - destruct phase as [| [| [| phase]]]; now rewrite IH.
  - now rewrite IH.
Qed.

(** X15. Base64 text in the URL-safe alphabet ([-] for [+], [_] for [/])
    decodes to the same bytes and never starts with [/].  So, unlike the
    standard text, the URL-safe text of every buffer is stored back as
    exactly the bytes of the buffer. *)
Theorem storeBlob_of_url_safe_text
    (env : Env) (this : WalrusClient) (st : state) (cfg : WalrusConfig)
    (bs : list byte) (epochs : Js.number) :
  heap st !! config this = Some cfg ->
  let text := url_safe (Base64.encode bs) in
  is_file_path text = false
  /\ Base64.decode text = bs
  /\ drop (length (log st)) (log (snd (storeBlob env this text epochs st)))
     = [EvPut (publisherUrl cfg +:+ "/v1/store") bs
              (Js.number_to_string epochs)].
Proof.
  intros Hcfg text.
  assert (Hpath : is_file_path text = false).
  { subst text. destruct bs as [| b rest]; [reflexivity |].
    destruct (encode_first b rest) as [tail ->]. cbn [url_safe].
    destruct (first_digit b) as [Hdot _].
    destruct (unbase64_url_safe (Base64.digit (N.shiftr (Byte.to_N b) 2)))
      as (_ & _ & Hslash & Hnodot).
    rewrite is_file_path_first by auto.
    now apply Ascii.eqb_neq. }
  assert (Hdecode : Base64.decode text = bs).
  { subst text. unfold Base64.decode. rewrite decode_from_url_safe.
    apply Base64Facts.decode_encode. }
  split; [exact Hpath |]. split; [exact Hdecode |].
  rewrite (storeBlob_log_base64 env this st cfg text epochs Hcfg Hpath).
  rewrite drop_app_length. now rewrite Hdecode.
Qed.

(** The byte 255, whose standard text [/w==] is taken for a path, is stored
    from its URL-safe text [_w==]. *)
Lemma storeBlob_of_url_safe_text_witness :
  url_safe (Base64.encode [xff]%byte) = "_w=="
  /\ drop (length (log demo_state))
          (log (snd (storeBlob (demo_env newlyCreated_reply) demo_client
                               (url_safe (Base64.encode [xff]%byte))
                               (Js.Num 5) demo_state)))
     = [EvPut "https://publisher-devnet.walrus.space/v1/store" [xff]%byte "5"].
Proof.
  split; [reflexivity |].
  destruct (storeBlob_of_url_safe_text (demo_env newlyCreated_reply)
              demo_client demo_state demo_config [xff]%byte (Js.Num 5))
    as (_ & _ & Hsent); [reflexivity |].
  exact Hsent.
Defined.
